(** * AutomaticSettings / internal / HtmlModification

    A shallow embedding of
    [src/options/modules/AutomaticSettings/internal/HtmlModification.js]
    and the properties of its two directions: applying stored option
    values to the controls of the options page, and reading the controls
    back into storable values.

    Conventions of the embedding.

    - A JavaScript object that is used as a map (the loaded option values,
      an option group, [rememberedOptions]) is a finite map from property
      names to values.  Only own properties are modelled: ids are taken to
      be different from the names that [Object.prototype] defines, so
      [hasOwnProperty] and [in] agree and both are key membership.
    - Option groups are objects that are shared between the loaded values,
      [rememberedOptions] and the results of extraction, so they live in a
      heap and are referred to by location.  A location outside the heap
      behaves like a value that is not an object.
    - The page is a list of elements in document order; an element is
      referred to by its index, and an index outside the page behaves like
      [undefined].  Each element carries its attributes (the [dataset]
      entry [x] is the attribute [data-x]), the properties the module
      reads and writes ([value], [checked], [indeterminate], the custom
      [selectedElement], which is [undefined] or an element), its form
      owner, and the list of its descendants, which is what
      [getElementsByTagName] enumerates.
    - The [value] property of a control is an accessor of the platform.
      What a control makes of an assignment depends on the control: a text
      input stores the string of the value, a number input stores the
      empty string when that string is no number, a range input moves the
      number into its range, a select element stores the string only if
      one of its options has it, a hidden input, a checkbox and a radio
      button write their [value] attribute, and an element without such a
      property stores the value as it is.  So each element carries, next
      to the [value] it reads now, the value it reads after an assignment
      ([valueAfter]) and the [value] attribute the assignment writes, if
      it writes one ([valueAttributeAfter]).  Both depend on the kind of
      the control and on attributes and options that the module never
      writes, so they stay with the element.  A control whose setter
      throws (a file input) is not among the controls of the page.
    - The [checked] property is the checkedness of the HTML standard.
      Assigning to it sets the checkedness and the dirty checkedness flag
      of the element.  Setting the [checked] attribute of a radio button
      whose flag is clear sets its checkedness and clears the checkedness
      of the other radio buttons of its group, the [input] elements in the
      Radio Button state with the same form owner and the same name,
      wherever they are on the page.  The standard asks for this when the
      attribute is added; whether it also happens when the attribute is
      there already is the [checked_policy] of the platform.
    - [document.querySelectorAll("[data-optiongroup=G]")] is the markup
      layer's query for all elements that declare the group [G]; group ids
      are taken to be valid in a selector.
    - The conversions of the platform that are not part of the module
      ([Number] on anything that is not a number already, property reads
      on primitive values) are fields of the class [Platform].
    - [Logger.logInfo] only logs and is left out.
    - The module is an ECMAScript module, hence strict code: writing a
      property of a primitive value throws a [TypeError]. *)

From stdpp Require Import base option list gmap strings fin_maps.
From Stdlib Require Import ZArith DecimalString DecimalPos DecimalZ Ascii.

Open Scope string_scope.
Open Scope list_scope.

(** ** Values, objects, elements *)

Definition loc := positive.

Inductive jsvalue {number : Type} : Type :=
| VUndefined
| VNull
| VBool (b : bool)
| VNumber (n : number)
| VString (s : string)
| VObject (l : loc).
Arguments jsvalue : clear implicits.

Inductive exception : Type :=
| Error (message : string)
| TypeError.

Inductive result (A : Type) : Type :=
| Ok (a : A)
| Raise (e : exception).
Arguments Ok {A} a.
Arguments Raise {A} e.

(** When setting the [checked] attribute of an input element whose dirty
    checkedness flag is clear sets its checkedness: when the attribute is
    added, as the standard has it; also when its value changes; or every
    time it is set. *)
Inductive checked_policy : Type :=
| WhenAdded
| WhenChanged
| WhenSet.

(** What the platform decides: [Number(v)] for a [v] that is not a number
    (parsing a string, the conversions of the other primitives), [v[k]] for
    a primitive [v] other than [undefined] and [null], and the effect of
    setting a [checked] attribute that is there already. *)
Class Platform : Type := {
  number : Type;
  ToNumber_other : jsvalue number → number;
  primitive_property : jsvalue number → string → jsvalue number;
  checked_attribute_policy : checked_policy
}.

(** ASCII lower case, as used for the keywords of enumerated attributes. *)
Definition ascii_lowercase (c : ascii) : ascii :=
  let n := nat_of_ascii c in
  if Nat.leb 65 n && Nat.leb n 90 then ascii_of_nat (n + 32) else c.

Fixpoint lowercase (s : string) : string :=
  match s with
  | EmptyString => EmptyString
  | String c s' => String (ascii_lowercase c) (lowercase s')
  end.

Section HtmlModification.

Context {platform : Platform}.

Local Abbreviation jsval := (jsvalue number).
Local Abbreviation object := (gmap string (jsvalue number)).

Record element : Type := {
  tagName : string;
  attributes : gmap string string;
  value : jsval;
  valueAfter : jsval → jsval;
  valueAttributeAfter : jsval → option string;
  checked : bool;
  dirtyCheckedness : bool;
  indeterminate : bool;
  form : option nat;
  selectedElement : option nat;
  descendants : list nat
}.

(** [e.value = v]: the control reads what it makes of [v], and writes its
    [value] attribute if it is a control that does. *)
Definition set_value (v : jsval) (e : element) : element :=
  {| tagName := tagName e;
     attributes := match valueAttributeAfter e v with
                   | Some s => <["value" := s]> (attributes e)
                   | None => attributes e
                   end;
     value := valueAfter e v;
     valueAfter := valueAfter e;
     valueAttributeAfter := valueAttributeAfter e;
     checked := checked e; dirtyCheckedness := dirtyCheckedness e;
     indeterminate := indeterminate e; form := form e;
     selectedElement := selectedElement e; descendants := descendants e |}.

(** [e.checked = b]: sets the checkedness and the dirty checkedness
    flag. *)
Definition set_checked (b : bool) (e : element) : element :=
  {| tagName := tagName e; attributes := attributes e; value := value e;
     valueAfter := valueAfter e;
     valueAttributeAfter := valueAttributeAfter e;
     checked := b; dirtyCheckedness := true;
     indeterminate := indeterminate e; form := form e;
     selectedElement := selectedElement e; descendants := descendants e |}.

(** [e.indeterminate = b] *)
Definition set_indeterminate (b : bool) (e : element) : element :=
  {| tagName := tagName e; attributes := attributes e; value := value e;
     valueAfter := valueAfter e;
     valueAttributeAfter := valueAttributeAfter e;
     checked := checked e; dirtyCheckedness := dirtyCheckedness e;
     indeterminate := b; form := form e;
     selectedElement := selectedElement e; descendants := descendants e |}.

(** The platform setting the checkedness of [e]; the flag is left as it
    is. *)
Definition set_checkedness (b : bool) (e : element) : element :=
  {| tagName := tagName e; attributes := attributes e; value := value e;
     valueAfter := valueAfter e;
     valueAttributeAfter := valueAttributeAfter e;
     checked := b; dirtyCheckedness := dirtyCheckedness e;
     indeterminate := indeterminate e; form := form e;
     selectedElement := selectedElement e; descendants := descendants e |}.

(** [e.setAttribute(name, s)], as far as the attributes go. *)
Definition setAttribute (name s : string) (e : element) : element :=
  {| tagName := tagName e; attributes := <[name := s]> (attributes e);
     value := value e;
     valueAfter := valueAfter e;
     valueAttributeAfter := valueAttributeAfter e;
     checked := checked e; dirtyCheckedness := dirtyCheckedness e;
     indeterminate := indeterminate e; form := form e;
     selectedElement := selectedElement e; descendants := descendants e |}.

(** [e.getAttribute(name)]: [None] is [null]. *)
Definition getAttribute (name : string) (e : element) : option string :=
  attributes e !! name.

Definition hasAttribute (name : string) (e : element) : bool :=
  bool_decide (is_Some (attributes e !! name)).

(** [a || b] on strings that may be missing: the empty string is falsy. *)
Definition or_else (a b : option string) : option string :=
  match a with
  | Some s => if decide (s = "") then b else Some s
  | None => b
  end.

(** The switch subject [elOption.getAttribute("type") ||
    elOption.getAttribute("data-type")]. *)
Definition type_of (e : element) : option string :=
  or_else (getAttribute "type" e) (getAttribute "data-type" e).

(** [a === v] for the result [a] of [getAttribute]. *)
Definition attribute_strict_equal (a : option string) (v : jsval) : bool :=
  match a, v with
  | Some s, VString t => bool_decide (s = t)
  | None, VNull => true
  | _, _ => false
  end.

(** ** Radio buttons *)

(** An [input] element in the Radio Button state: the keyword of the
    [type] attribute is matched without regard to case. *)
Definition is_radio_button (e : element) : bool :=
  bool_decide (tagName e = "input")
  && bool_decide (lowercase <$> getAttribute "type" e = Some "radio").

(** Whether [b] is in the radio button group of the radio button [a]:
    a radio button with the same form owner and the same name, which is
    not empty. *)
Definition in_radio_button_group (a b : element) : bool :=
  is_radio_button b
  && bool_decide (form a = form b)
  && match getAttribute "name" a, getAttribute "name" b with
     | Some n, Some m => negb (bool_decide (n = "")) && bool_decide (n = m)
     | _, _ => false
     end.

(** Whether [radio.setAttribute("checked", "")] sets the checkedness of
    the radio button. *)
Definition sets_checkedness (radio : element) : bool :=
  negb (dirtyCheckedness radio)
  && match getAttribute "checked" radio with
     | None => true
     | Some s =>
         match checked_attribute_policy with
         | WhenAdded => false
         | WhenChanged => negb (bool_decide (s = ""))
         | WhenSet => true
         end
     end.

(** [radioElement.setAttribute("checked", "")] for a radio button of the
    page: the attribute is set, and where this sets the checkedness of the
    radio button, the other members of its group are unchecked. *)
Definition setAttribute_checked (radioElement : nat) (doc : list element)
  : list element :=
  match doc !! radioElement with
  | None => doc
  | Some radio =>
      if sets_checkedness radio then
        imap (λ k e,
                if decide (k = radioElement)
                then set_checkedness true (setAttribute "checked" "" e)
                else if in_radio_button_group radio e
                     then set_checkedness false e
                     else e)
             doc
      else <[radioElement := setAttribute "checked" "" radio]> doc
  end.

(** ** The module state and its environment *)

Inductive getter : Type :=
| GetterUndefined
| GetterNull
| GetterFunction (f : string → jsval).

Record state : Type := {
  defaultOptionGetter : getter;
  rememberedOptions : option object;
  heap : gmap loc object;
  document : list element
}.

Definition set_defaultOptionGetter (g : getter) (st : state) : state :=
  {| defaultOptionGetter := g; rememberedOptions := rememberedOptions st;
     heap := heap st; document := document st |}.

Definition set_rememberedOptions (r : option object) (st : state) : state :=
  {| defaultOptionGetter := defaultOptionGetter st; rememberedOptions := r;
     heap := heap st; document := document st |}.

Definition set_heap (h : gmap loc object) (st : state) : state :=
  {| defaultOptionGetter := defaultOptionGetter st;
     rememberedOptions := rememberedOptions st;
     heap := h; document := document st |}.

Definition set_document (d : list element) (st : state) : state :=
  {| defaultOptionGetter := defaultOptionGetter st;
     rememberedOptions := rememberedOptions st;
     heap := heap st; document := d |}.

(** The state when the module has been loaded and nothing was called. *)
Definition loaded (h : gmap loc object) (d : list element) : state :=
  {| defaultOptionGetter := GetterUndefined; rememberedOptions := None;
     heap := h; document := d |}.

(** A call either returns or throws; the state it leaves behind is kept in
    both cases, an exception does not undo the writes before it. *)
Inductive completion (A : Type) : Type :=
| Normal (a : A) (st : state)
| Throw (e : exception) (st : state).
Arguments Normal {A} a st.
Arguments Throw {A} e st.

Definition M (A : Type) : Type := state → completion A.

Definition ret {A} (a : A) : M A := fun st => Normal a st.
Definition throw {A} (e : exception) : M A := fun st => Throw e st.
Definition bind {A B} (m : M A) (k : A → M B) : M B :=
  fun st =>
    match m st with
    | Normal a st' => k a st'
    | Throw e st' => Throw e st'
    end.
Definition lift {A} (r : result A) : M A :=
  fun st => match r with Ok a => Normal a st | Raise e => Throw e st end.

(** A step that only reads the state. *)
Definition read {A} (f : state → result A) : M A :=
  fun st => lift (f st) st.

Local Notation "'do' x <- m ; k" := (bind m (fun x => k))
  (at level 10, x pattern, m at level 100, k at level 200).
Local Notation "m ;; k" := (bind m (fun _ => k))
  (at level 100, k at level 200, right associativity).

(** [for (const x of l) body(x)] and [l.forEach(body)]. *)
Fixpoint forEach {A} (body : A → M unit) (l : list A) : M unit :=
  match l with
  | [] => ret tt
  | x :: l' => body x ;; forEach body l'
  end.

(** ** Property access *)

(** The property key of a possibly [null] group argument. *)
Definition group_key (optionGroup : option string) : string :=
  match optionGroup with Some g => g | None => "null" end.

(** The property key of a possibly [undefined] option id. *)
Definition id_key (optionId : option string) : string :=
  match optionId with Some s => s | None => "undefined" end.

(** [o.hasOwnProperty(k)] and [k in o]. *)
Definition hasOwnProperty (o : object) (k : string) : bool :=
  bool_decide (is_Some (o !! k)).

(** [o[k]] for an object [o]. *)
Definition get (o : object) (k : string) : jsval :=
  default VUndefined (o !! k).

(** [v[k]] for any value [v]. *)
Definition get_property (h : gmap loc object) (v : jsval) (k : string)
  : result jsval :=
  match v with
  | VUndefined | VNull => Raise TypeError
  | VObject l =>
      match h !! l with
      | Some o => Ok (get o k)
      | None => Raise TypeError
      end
  | _ => Ok (primitive_property v k)
  end.

(** [v[k] = x] in strict code. *)
Definition set_property (v : jsval) (k : string) (x : jsval) : M unit :=
  fun st =>
    match v with
    | VObject l =>
        match heap st !! l with
        | Some o => Normal tt (set_heap (<[l := <[k := x]> o]> (heap st)) st)
        | None => Throw TypeError st
        end
    | _ => Throw TypeError st
    end.

(** [{}]: a new empty object. *)
Definition new_object : M jsval :=
  fun st =>
    let l := fresh (dom (heap st)) in
    Normal (VObject l) (set_heap (<[l := ∅]> (heap st)) st).

(** ** The document *)

(** [elOption.getElementsByTagName(name)], in tree order. *)
Definition getElementsByTagName (doc : list element) (elOption : element)
    (name : string) : list nat :=
  filter (λ i, tagName <$> doc !! i = Some name) (descendants elOption).

(** [document.querySelectorAll("[data-optiongroup=G]")], in document
    order. *)
Definition querySelectorAll_optiongroup (doc : list element)
    (optionGroup : string) : list nat :=
  filter (λ i, doc !! i ≫= getAttribute "data-optiongroup" = Some optionGroup)
         (seq 0 (length doc)).

(** Replaces the element at index [i] by [f] of it. *)
Definition update_element (i : nat) (f : element → element) : M unit :=
  fun st => Normal tt (set_document (alter f i (document st)) st).

(** Replaces the page by [f] of it. *)
Definition update_document (f : list element → list element) : M unit :=
  fun st => Normal tt (set_document (f (document st)) st).

(** ** The module *)

(** Line 42. *)
Definition resetRememberedOptions : M unit :=
  fun st => Normal tt (set_rememberedOptions (Some ∅) st).

(** Line 62. *)
Definition setDefaultOptionProvider (defaultOptionCallback : getter)
  : M unit :=
  fun st => Normal tt (set_defaultOptionGetter defaultOptionCallback st).

Definition provider_not_set : string :=
  "Default option provider is not set. You need to call setDefaultOptionProvider() before .init() to set it.".

Definition nothing_selected : string := "no radio element is selected".

(** Line 76. *)
Definition isReady : M bool :=
  fun st =>
    match defaultOptionGetter st with
    | GetterUndefined => Throw (Error provider_not_set) st
    | _ => Normal true st
    end.

(** Lines 102-109: asking the default provider.  Calling [undefined]
    throws; a [null] provider leaves [optionValue] undefined. *)
Definition getDefault (optionId : string) (optionGroup : option string)
  : M jsval :=
  fun st =>
    match defaultOptionGetter st with
    | GetterNull => Normal VUndefined st
    | GetterUndefined => Throw TypeError st
    | GetterFunction f =>
        match optionGroup with
        | None => Normal (f optionId) st
        | Some g => lift (get_property (heap st) (f g) optionId) st
        end
    end.

(** Lines 126-128. *)
Definition rememberOptions (optionGroup : string)
    (allOptionsInGroup : jsval) : M unit :=
  fun st =>
    match rememberedOptions st with
    | None => Throw TypeError st
    | Some r =>
        if hasOwnProperty r optionGroup then Normal tt st
        else Normal tt (set_rememberedOptions
                          (Some (<[optionGroup := allOptionsInGroup]> r)) st)
    end.

(** Lines 99-130 of [applyOptionToElement]: the value to apply.  [None]
    is the early return of line 115. *)
Definition resolveOptionValue (optionId : string)
    (optionGroup : option string) (optionValues : option object)
  : M (option jsval) :=
  match optionValues with
  | None => throw TypeError
  | Some values =>
      if negb (hasOwnProperty values optionId)
         && negb (hasOwnProperty values (group_key optionGroup))
      then
        do optionValue <- getDefault optionId optionGroup;
        match optionValue with
        | VUndefined => ret None
        | _ => ret (Some optionValue)
        end
      else
        match optionGroup with
        | None => ret (Some (get values optionId))
        | Some g =>
            let allOptionsInGroup := get values g in
            do optionValue <-
              read (λ st, get_property (heap st) allOptionsInGroup optionId);
            rememberOptions g allOptionsInGroup ;;
            ret (Some optionValue)
        end
  end.

(** Lines 145-146: the test of the loop over the radio children. *)
Definition carries_value (optionValue : jsval) (radioElement : element)
  : bool :=
  bool_decide (getAttribute "type" radioElement = Some "radio")
  && attribute_strict_equal (getAttribute "value" radioElement) optionValue.

(** Lines 145-148: one round of the loop over the radio children. *)
Definition checkRadioElement (optionValue : jsval) (radioElement : nat)
    (doc : list element) : list element :=
  match doc !! radioElement with
  | Some radio =>
      if carries_value optionValue radio
      then setAttribute_checked radioElement doc
      else doc
  | None => doc
  end.

(** [v === true] *)
Definition strict_equal_true (v : jsval) : bool :=
  match v with VBool true => true | _ => false end.

(** Lines 135-139: the new state of a checkbox. *)
Definition checkCheckbox (optionValue : jsval) (el : element) : element :=
  match optionValue with
  | VNull => set_indeterminate true el
  | _ => set_checked (strict_equal_true optionValue) el
  end.

(** Lines 133-155 of [applyOptionToElement]: writing the value. *)
Definition writeOptionValue (elOption : nat) (optionValue : jsval)
  : M unit :=
  fun st =>
    match document st !! elOption with
    | None => Throw TypeError st
    | Some el =>
        let type := type_of el in
        if decide (type = Some "checkbox") then
          update_element elOption (checkCheckbox optionValue) st
        else if decide (type = Some "radiogroup") then
          forEach (λ radioElement,
                     update_document
                       (checkRadioElement optionValue radioElement))
                  (getElementsByTagName (document st) el "input") st
        else
          update_element elOption (set_value optionValue) st
    end.

(** Line 98. *)
Definition applyOptionToElement (optionId : string)
    (optionGroup : option string) (elOption : nat)
    (optionValues : option object) : M unit :=
  do optionValue <- resolveOptionValue optionId optionGroup optionValues;
  match optionValue with
  | None => ret tt
  | Some v => writeOptionValue elOption v
  end.

(** Lines 175-180: the test of the scan for the checked radio child. *)
Definition is_checked (radioElement : element) : bool :=
  bool_decide (getAttribute "type" radioElement = Some "radio")
  && hasAttribute "checked" radioElement.

Definition is_checked_radio (doc : list element) (i : nat) : bool :=
  from_option is_checked false (doc !! i).

(** Line 167. *)
Definition getSelectedFromRadioGroup (doc : list element)
    (elOption : element) : result nat :=
  match selectedElement elOption with
  | Some elSelected => Ok elSelected
  | None =>
      match List.find (is_checked_radio doc)
                      (getElementsByTagName doc elOption "input") with
      | Some radioElement => Ok radioElement
      | None => Raise (Error nothing_selected)
      end
  end.

(** Line 195: [None] is [undefined]. *)
Definition getOptionIdFromElement (elOption : element) : option string :=
  or_else (getAttribute "name" elOption) (getAttribute "data-name" elOption).

(** [Number(v)] *)
Definition Number (v : jsval) : jsval :=
  match v with
  | VNumber n => VNumber n
  | _ => VNumber (ToNumber_other v)
  end.

(** Line 207. *)
Definition getIdAndOptionFromElement (doc : list element) (elOption : nat)
  : result (option string * jsval) :=
  match doc !! elOption with
  | None => Raise TypeError
  | Some el =>
      let type := type_of el in
      if decide (type = Some "checkbox") then
        Ok (getOptionIdFromElement el,
            if indeterminate el then VNull else VBool (checked el))
      else if decide (type = Some "radiogroup") then
        match getSelectedFromRadioGroup doc el with
        | Raise e => Raise e
        | Ok i =>
            match doc !! i with
            | None => Raise TypeError
            | Some elSelected =>
                Ok (match getOptionIdFromElement elSelected with
                    | Some optionId => Some optionId
                    | None => getOptionIdFromElement el
                    end,
                    value elSelected)
            end
        end
      else if decide (type = Some "number") then
        Ok (getOptionIdFromElement el, Number (value el))
      else if decide (type = Some "range") then
        Ok (getOptionIdFromElement el, Number (value el))
      else
        Ok (getOptionIdFromElement el, value el)
  end.

(** Lines 261-266: the object the group is collected in. *)
Definition rememberedOrNew (optionGroup : string) : M jsval :=
  fun st =>
    match rememberedOptions st with
    | None => Throw TypeError st
    | Some r =>
        if hasOwnProperty r optionGroup then Normal (get r optionGroup) st
        else new_object st
    end.

(** Lines 268-271: the body of the [forEach]. *)
Definition collectOption (optionValue : jsval) (elCurrentOption : nat)
  : M unit :=
  do p <- read (λ st, getIdAndOptionFromElement (document st) elCurrentOption);
  set_property optionValue (id_key (fst p)) (snd p).

(** Line 253.  [useDatagroup] is [true] when the caller leaves it out. *)
Definition getIdAndOptionsFromElement (elOption : nat) (useDatagroup : bool)
  : M (option string * jsval) :=
  fun st =>
    match document st !! elOption with
    | None => Throw TypeError st
    | Some el =>
        match (if useDatagroup then getAttribute "data-optiongroup" el
               else None) with
        | Some optionGroup =>
            (do optionValue <- rememberedOrNew optionGroup;
             forEach (collectOption optionValue)
                     (querySelectorAll_optiongroup (document st) optionGroup) ;;
             ret (Some optionGroup, optionValue)) st
        | None =>
            read (λ st, getIdAndOptionFromElement (document st) elOption) st
        end
    end.

(** ** Notions the properties are stated with *)

(** The document after the loop of lines 144-149. *)
Definition checkRadioElements (v : jsval) (inputs : list nat)
    (doc : list element) : list element :=
  foldl (λ d r, checkRadioElement v r d) doc inputs.

(** What the loop does to the attributes of a radio child. *)
Definition with_checked_attribute (v : jsval) (radioElement : element)
  : element :=
  if carries_value v radioElement
  then setAttribute "checked" "" radioElement
  else radioElement.

(** The values a control gives back after they were applied to it: the
    values that fit the control.  For a control that is written through
    its [value] property these are the values that the control keeps: a
    numeric control reads as the number after the assignment, any other
    control reads the value itself. *)
Definition round_trips (doc : list element) (el : element) (v : jsval)
  : Prop :=
  if decide (type_of el = Some "checkbox") then
    v = VNull ∨ ((∃ b, v = VBool b) ∧ indeterminate el = false)
  else if decide (type_of el = Some "radiogroup") then
    selectedElement el = None
    ∧ ∃ j child,
        List.find
          (λ k, is_checked_radio doc k
                || from_option (carries_value v) false (doc !! k))
          (getElementsByTagName doc el "input") = Some j
        ∧ doc !! j = Some child
        ∧ carries_value v child = true
        ∧ value child = v
  else if decide (type_of el = Some "number" ∨ type_of el = Some "range") then
    Number (valueAfter el v) = v
  else
    valueAfter el v = v.

(** A control that takes back what extraction reads from it, as the
    controls of a page do: a checkbox always does, a numeric control reads
    as the same number after the number was assigned, any other control
    keeps its value when it is assigned to it. *)
Definition keeps_own_value (el : element) : Prop :=
  if decide (type_of el = Some "checkbox") then True
  else if decide (type_of el = Some "number" ∨ type_of el = Some "range") then
    Number (valueAfter el (Number (value el))) = Number (value el)
  else
    valueAfter el (value el) = value el.

(** The default of an option: what the provider returns for the option
    id, or the entry of the option in what it returns for the group id. *)
Definition provided_default (h : gmap loc object) (f : string → jsval)
    (optionId : string) (optionGroup : option string) : result jsval :=
  match optionGroup with
  | None => Ok (f optionId)
  | Some g => get_property h (f g) optionId
  end.

(** Writing the pairs of the members into an aggregate, in order. *)
Definition write_pair (o : object) (p : option string * jsval) : object :=
  <[id_key p.1 := p.2]> o.

Definition collect (seed : object) (pairs : list (option string * jsval))
  : object :=
  foldl write_pair seed pairs.

(** The keys the pairs are written under. *)
Definition keys (pairs : list (option string * jsval)) : list string :=
  (λ p, id_key p.1) <$> pairs.

(** The group that is remembered under [G], as a map: empty when nothing
    is remembered. *)
Definition remembered_group (st : state) (G : string) : object :=
  match rememberedOptions st ≫= (.!! G) with
  | Some (VObject l) => default ∅ (heap st !! l)
  | _ => ∅
  end.

(** The state a call leaves behind. *)
Definition final_state {A} (c : completion A) : state :=
  match c with Normal _ st => st | Throw _ st => st end.

(** Whether there is an entry for [G] in [rememberedOptions]. *)
Definition is_remembered (st : state) (G : string) : bool :=
  from_option (λ r, hasOwnProperty r G) false (rememberedOptions st).

(** [e'] is [e] up to its [value], [checked] and [indeterminate]
    properties, to a [checked] attribute that it may have gained and to
    its [value] attribute: the tag, the tree below it, the
    [selectedElement] marker, the form owner, what the control makes of an
    assignment and every other attribute are the same. *)
Definition same_markup (e e' : element) : Prop :=
  tagName e' = tagName e
  ∧ descendants e' = descendants e
  ∧ selectedElement e' = selectedElement e
  ∧ form e' = form e
  ∧ valueAfter e' = valueAfter e
  ∧ valueAttributeAfter e' = valueAttributeAfter e
  ∧ (∀ name, name ≠ "checked" → name ≠ "value" →
       getAttribute name e' = getAttribute name e)
  ∧ (hasAttribute "checked" e = true → hasAttribute "checked" e' = true).


(** ** Notions the proofs use *)

(** An element without its [checked] attribute and its checkedness, the
    two things that the loop over the radio children changes. *)
Definition without_checked (e : element) : element :=
  {| tagName := tagName e; attributes := delete "checked" (attributes e);
     value := value e;
     valueAfter := valueAfter e;
     valueAttributeAfter := valueAttributeAfter e;
     checked := false; dirtyCheckedness := dirtyCheckedness e;
     indeterminate := indeterminate e; form := form e;
     selectedElement := selectedElement e; descendants := descendants e |}.

(** What rounds of the loop have done to an element: whether they have
    set its [checked] attribute, and the checkedness they have set, if
    they have set it. *)
Definition checked_effect : Type := bool * option bool.

Definition with_effect (x : checked_effect) (e : element) : element :=
  let e' := if x.1 then setAttribute "checked" "" e else e in
  match x.2 with
  | Some b => set_checkedness b e'
  | None => e'
  end.

(** The effect [x], then the effect [y]. *)
Definition then_effect (x y : checked_effect) : checked_effect :=
  (x.1 || y.1, match y.2 with Some b => Some b | None => x.2 end).

(** The effect of the round for the radio child [r] on the element [e] at
    index [k], on a platform where every set of the attribute counts. *)
Definition effect_of_round (v : jsval) (doc : list element) (r k : nat)
    (e : element) : checked_effect :=
  match doc !! r with
  | Some radio =>
      if carries_value v radio then
        if decide (k = r)
        then (true, if dirtyCheckedness radio then None else Some true)
        else if negb (dirtyCheckedness radio) && in_radio_button_group radio e
             then (false, Some false)
             else (false, None)
      else (false, None)
  | None => (false, None)
  end.


End HtmlModification.

Arguments Normal {platform A} a st.
Arguments Throw {platform A} e st.

(** ** The module on an options page *)

(** Numbers are integers here, and a string is read as a decimal
    integer. *)
Definition to_number (v : jsvalue Z) : Z :=
  match v with
  | VBool true => 1%Z
  | VString s => from_option Z.of_int 0%Z (NilEmpty.int_of_string s)
  | _ => 0%Z
  end.

Definition no_property (v : jsvalue Z) (k : string) : jsvalue Z := VUndefined.

#[global] Instance integers : Platform :=
  {| number := Z; ToNumber_other := to_number;
     primitive_property := no_property;
     checked_attribute_policy := WhenAdded |}.

(** [String(v)] *)
Definition to_string (v : jsvalue number) : string :=
  match v with
  | VUndefined => "undefined"
  | VNull => "null"
  | VBool true => "true"
  | VBool false => "false"
  | VNumber n => NilEmpty.string_of_int (Z.to_int n)
  | VString s => s
  | VObject _ => "[object Object]"
  end.

(** The string an [input] element makes of an assigned value: [null] is
    the empty string. *)
Definition input_string (v : jsvalue number) : string :=
  match v with
  | VNull => ""
  | _ => to_string v
  end.

(** A decimal integer: digits, at least one, after an optional minus. *)
Definition is_decimal (s : string) : bool :=
  match s with
  | EmptyString => false
  | String "-" EmptyString => false
  | String "-" s' => bool_decide (is_Some (NilEmpty.uint_of_string s'))
  | _ => bool_decide (is_Some (NilEmpty.uint_of_string s))
  end.

Fixpoint strip_newlines (s : string) : string :=
  match s with
  | EmptyString => EmptyString
  | String c s' =>
      if bool_decide (c = "010"%char ∨ c = "013"%char)
      then strip_newlines s'
      else String c (strip_newlines s')
  end.

(** What the controls of the page read after an assignment to [value]. *)

(** An element without a [value] property of the platform: the assignment
    creates a property that holds the value. *)
Definition own_property (v : jsvalue number) : jsvalue number := v.

(** A text input: the string, without line breaks. *)
Definition text_value (v : jsvalue number) : jsvalue number :=
  VString (strip_newlines (input_string v)).

(** A number input: the string if it is a number, here a decimal
    integer, and the empty string if not. *)
Definition number_value (v : jsvalue number) : jsvalue number :=
  VString (if is_decimal (input_string v) then input_string v else "").

(** A range input with the integer bounds [lo ≤ hi] and the step 1: the
    number, moved into the range; the middle of the range for a string
    that is no number. *)
Definition range_value (lo hi : Z) (v : jsvalue number) : jsvalue number :=
  let n := if is_decimal (input_string v)
           then to_number (VString (input_string v))
           else (lo + (hi - lo + 1) / 2)%Z in
  VString (to_string (VNumber (Z.max lo (Z.min hi n)))).

(** A select element: the string, if one of the options has it as its
    value; otherwise no option is selected and the value is empty. *)
Definition select_value (options : list string) (v : jsvalue number)
  : jsvalue number :=
  VString (if bool_decide (to_string v ∈ options) then to_string v else "").

(** A checkbox, a radio button and a hidden input read their [value]
    attribute, and the assignment writes it. *)
Definition attribute_value (v : jsvalue number) : jsvalue number :=
  VString (input_string v).

Definition attribute_written (v : jsvalue number) : option string :=
  Some (input_string v).

Definition no_attribute_written (v : jsvalue number) : option string := None.

(** An element of a page as it is after loading: checked if it has the
    [checked] attribute, not touched by the user, outside any form. *)
Definition control (tag : string) (attrs : list (string * string))
    (v : jsvalue number) (after : jsvalue number → jsvalue number)
    (attribute_after : jsvalue number → option string) (inside : list nat)
  : element :=
  {| tagName := tag; attributes := list_to_map attrs; value := v;
     valueAfter := after; valueAttributeAfter := attribute_after;
     checked := bool_decide (is_Some (list_to_map (M := gmap string string)
                                                  attrs !! "checked"));
     dirtyCheckedness := false; indeterminate := false; form := None;
     selectedElement := None; descendants := inside |}.

Definition icon_checkbox : element :=
  control "input" [("type", "checkbox"); ("name", "popupIconColored")]
          (VString "on") attribute_value attribute_written [].

Definition quality_group : element :=
  control "ul" [("data-type", "radiogroup"); ("data-name", "qrQuality")]
          VUndefined own_property no_attribute_written [2; 3].

Definition quality_L : element :=
  control "input" [("type", "radio"); ("name", "qrQuality"); ("value", "L")]
          (VString "L") attribute_value attribute_written [].

Definition quality_H : element :=
  control "input" [("type", "radio"); ("name", "qrQuality"); ("value", "H")]
          (VString "H") attribute_value attribute_written [].

Definition size_input : element :=
  control "input" [("type", "number"); ("name", "size");
                   ("data-optiongroup", "qrCodeSize")]
          (VString "200") number_value no_attribute_written [].

Definition size_type_options : list string := ["auto"; "fixed"; "remember"].

Definition size_type_select : element :=
  control "select" [("name", "sizeType"); ("data-optiongroup", "qrCodeSize")]
          (VString "fixed") (select_value size_type_options)
          no_attribute_written [].

Definition options_page : list element :=
  [ icon_checkbox; quality_group; quality_L; quality_H; size_input;
    size_type_select ].

(** The defaults of the add-on: a colour, the quality, and the group of
    the size. *)
Definition defaults (k : string) : jsvalue number :=
  if decide (k = "qrColor") then VString "#0c0c0d"
  else if decide (k = "qrQuality") then VString "H"
  else if decide (k = "qrCodeSize") then VObject 2%positive
  else VUndefined.

Definition objects : gmap loc (gmap string (jsvalue number)) :=
  {[ 1%positive := {[ "size" := VNumber 100%Z; "sizeType" := VString "auto";
                      "unit" := VString "px" ]};
     2%positive := {[ "size" := VNumber 150%Z;
                      "sizeType" := VString "auto" ]} ]}.

(** Loaded option values. *)
Definition nothing_stored : gmap string (jsvalue number) := ∅.

Definition stored_icon : gmap string (jsvalue number) :=
  {[ "popupIconColored" := VNull ]}.

Definition stored_quality (q : string) : gmap string (jsvalue number) :=
  {[ "qrQuality" := VString q ]}.

Definition stored_size : gmap string (jsvalue number) :=
  {[ "size" := VNumber 200%Z ]}.

Definition stored_size_group : gmap string (jsvalue number) :=
  {[ "qrCodeSize" := VObject 1%positive ]}.

(** The page after [setDefaultOptionProvider] and
    [resetRememberedOptions]. *)
Definition page : state :=
  {| defaultOptionGetter := GetterFunction defaults;
     rememberedOptions := Some ∅;
     heap := objects;
     document := options_page |}.

(** The page once the group of the size has been remembered. *)
Definition page_remembering : state :=
  {| defaultOptionGetter := GetterFunction defaults;
     rememberedOptions := Some stored_size_group;
     heap := objects;
     document := options_page |}.

Definition size_pairs : list (option string * jsvalue number) :=
  [ (Some "size", VNumber 200%Z); (Some "sizeType", VString "fixed") ].

(** A page on which the checked radio child declares no id. *)
Definition quality_H_unnamed : element :=
  control "input" [("type", "radio"); ("value", "H"); ("checked", "")]
          (VString "H") attribute_value attribute_written [].

Definition unnamed_page : list element :=
  [ icon_checkbox; quality_group; quality_L; quality_H_unnamed ].

(** A provider that has no default for anything. *)
Definition no_defaults (k : string) : jsvalue number := VUndefined.

Definition page_without_defaults : state :=
  {| defaultOptionGetter := GetterFunction no_defaults;
     rememberedOptions := Some ∅;
     heap := objects;
     document := options_page |}.

(** The page with the quality [L] selected. *)
Definition quality_L_checked : element :=
  control "input" [("type", "radio"); ("name", "qrQuality"); ("value", "L");
                   ("checked", "")]
          (VString "L") attribute_value attribute_written [].

Definition page_with_L : state :=
  {| defaultOptionGetter := GetterFunction defaults;
     rememberedOptions := Some ∅;
     heap := objects;
     document := [ icon_checkbox; quality_group; quality_L_checked; quality_H;
                   size_input; size_type_select ] |}.

(** The page with a quality group that keeps the marker on [L]. *)
Definition quality_group_marked : element :=
  {| tagName := "ul";
     attributes := list_to_map [("data-type", "radiogroup");
                                ("data-name", "qrQuality")];
     value := VUndefined;
     valueAfter := own_property; valueAttributeAfter := no_attribute_written;
     checked := false; dirtyCheckedness := false; indeterminate := false;
     form := None; selectedElement := Some 2; descendants := [2; 3] |}.

Definition page_with_marker : state :=
  {| defaultOptionGetter := GetterFunction defaults;
     rememberedOptions := Some ∅;
     heap := objects;
     document := [ icon_checkbox; quality_group_marked; quality_L; quality_H;
                   size_input; size_type_select ] |}.

(** A page whose size group ends in a radio group with nothing
    selected. *)
Definition unit_group : element :=
  control "ul" [("data-type", "radiogroup"); ("data-name", "unit");
                ("data-optiongroup", "qrCodeSize")]
          VUndefined own_property no_attribute_written [2].

Definition unit_px : element :=
  control "input" [("type", "radio"); ("name", "unit"); ("value", "px")]
          (VString "px") attribute_value attribute_written [].

Definition page_with_units : state :=
  {| defaultOptionGetter := GetterFunction defaults;
     rememberedOptions := Some stored_size_group;
     heap := objects;
     document := [ size_input; unit_group; unit_px ] |}.

(** The page before [setDefaultOptionProvider] and
    [resetRememberedOptions]. *)
Definition page_not_set_up : state := loaded objects options_page.

Definition size_object : gmap string (jsvalue number) :=
  {[ "size" := VNumber 100%Z; "sizeType" := VString "auto";
     "unit" := VString "px" ]}.

Definition applied_size_pairs : list (option string * jsvalue number) :=
  [ (Some "size", VNumber 100%Z); (Some "sizeType", VString "fixed") ].

(** The controls of the appearance: a colour as text and the zoom as a
    range from 0 to 100, next to the select element and the checkbox. *)
Definition color_input : element :=
  control "input" [("type", "text"); ("name", "qrColor")]
          (VString "#000000") text_value no_attribute_written [].

Definition zoom_range : element :=
  control "input" [("type", "range"); ("name", "zoom"); ("min", "0");
                   ("max", "100")]
          (VString "50") (range_value 0 100) no_attribute_written [].

Definition appearance_page : list element :=
  [ color_input; zoom_range; size_type_select; icon_checkbox ].

Definition appearance : state :=
  {| defaultOptionGetter := GetterFunction defaults;
     rememberedOptions := Some ∅;
     heap := objects;
     document := appearance_page |}.



(** Loaded values and a provider that do not fit the controls. *)
Definition stored_zoom : gmap string (jsvalue number) :=
  {[ "zoom" := VNumber 200%Z ]}.

Definition stored_size_type (s : string) : gmap string (jsvalue number) :=
  {[ "sizeType" := VString s ]}.

Definition stored_color_number : gmap string (jsvalue number) :=
  {[ "qrColor" := VNumber 5%Z ]}.

Definition stored_icon_checked : gmap string (jsvalue number) :=
  {[ "popupIconColored" := VBool true ]}.

Definition stored_under_null : gmap string (jsvalue number) :=
  {[ "null" := VBool true ]}.

Definition odd_defaults (k : string) : jsvalue number :=
  if decide (k = "qrQuality") then VString "Q"
  else if decide (k = "popupIconColored") then VBool true
  else VUndefined.

Definition page_with_odd_defaults : state :=
  {| defaultOptionGetter := GetterFunction odd_defaults;
     rememberedOptions := Some ∅;
     heap := objects;
     document := options_page |}.

Section Properties.

Context {platform : Platform}.

Local Abbreviation jsval := (jsvalue number).
Local Abbreviation object := (gmap string (jsvalue number)).

(** ** Basic facts *)

Lemma set_heap_set_heap h1 h2 st :
  set_heap h2 (set_heap h1 st) = set_heap h2 st.
Proof. reflexivity. Qed.

Lemma set_heap_id st : set_heap (heap st) st = st.
Proof. by destruct st. Qed.

Lemma set_document_id st : set_document (document st) st = st.
Proof. by destruct st. Qed.

Lemma alter_lookup (f : element → element) i (l : list element) x :
  l !! i = Some x → alter f i l = <[i := f x]> l.
Proof.
  intros Hi. apply list_eq. intros j.
  rewrite list_lookup_alter, list_lookup_insert.
  pose proof (lookup_lt_Some _ _ _ Hi) as Hlt.
  destruct (decide (i = j)) as [->|Hne].
  - rewrite Hi. simpl. by rewrite decide_True.
  - by rewrite decide_False by (intros [? _]; done).
Qed.

Lemma hasOwnProperty_true (o : object) k :
  hasOwnProperty o k = true ↔ is_Some (o !! k).
Proof. unfold hasOwnProperty. by rewrite bool_decide_eq_true. Qed.

Lemma hasOwnProperty_false (o : object) k :
  hasOwnProperty o k = false ↔ o !! k = None.
Proof.
  unfold hasOwnProperty. rewrite bool_decide_eq_false.
  by rewrite eq_None_not_Some.
Qed.

Lemma hasOwnProperty_lookup (o : object) k v :
  o !! k = Some v → hasOwnProperty o k = true.
Proof. intros H. apply hasOwnProperty_true. eauto. Qed.

(** A stored value is applied as it is: the default provider is not
    asked, and nothing is remembered for an option without a group. *)
Lemma resolve_stored optionId (values : object) v st :
  values !! optionId = Some v →
  resolveOptionValue optionId None (Some values) st = Normal (Some v) st.
Proof.
  intros Hv. unfold resolveOptionValue.
  rewrite (hasOwnProperty_lookup _ _ _ Hv). simpl.
  unfold get. by rewrite Hv.
Qed.

Lemma apply_stored optionId (values : object) v elOption st :
  values !! optionId = Some v →
  applyOptionToElement optionId None elOption (Some values) st
  = writeOptionValue elOption v st.
Proof.
  intros Hv. unfold applyOptionToElement, bind.
  by rewrite (resolve_stored _ _ _ _ Hv).
Qed.

(** ** The readiness check *)

(** C7: [isReady()] returns [true] once a default option provider, a
    function or [null], has been registered, and throws the configuration
    error when no provider has been set: in the state the module is loaded
    in, and after the provider has been unset with [undefined]. *)
Theorem isReady_iff_provider_set :
  (∀ f st,
     bind (setDefaultOptionProvider (GetterFunction f)) (λ _, isReady) st
     = Normal true (set_defaultOptionGetter (GetterFunction f) st))
  ∧ (∀ st,
       bind (setDefaultOptionProvider GetterNull) (λ _, isReady) st
       = Normal true (set_defaultOptionGetter GetterNull st))
  ∧ (∀ h d, isReady (loaded h d) = Throw (Error provider_not_set) (loaded h d))
  ∧ (∀ st,
       bind (setDefaultOptionProvider GetterUndefined) (λ _, isReady) st
       = Throw (Error provider_not_set)
               (set_defaultOptionGetter GetterUndefined st)).
Proof. repeat split. Qed.

(** ** Applying a stored value *)

(** C9: when the loaded values hold the option id as a key but not the
    id of the group the option is applied with, [applyOptionToElement]
    throws a [TypeError] from reading the option inside the missing group.
    Neither the direct value is applied nor is the call skipped, and the
    state is the one before the call. *)
Theorem apply_option_present_group_missing_throws
    optionId g elOption (values : object) st :
  hasOwnProperty values optionId = true →
  hasOwnProperty values g = false →
  applyOptionToElement optionId (Some g) elOption (Some values) st
  = Throw TypeError st.
Proof.
  intros Ho Hg. apply hasOwnProperty_false in Hg.
  unfold applyOptionToElement, bind, resolveOptionValue.
  rewrite Ho. simpl. unfold bind, read, get. by rewrite Hg.
Qed.

(** ** Checkboxes *)

Lemma lookup_insert_element (doc : list element) i el el' :
  doc !! i = Some el → <[i := el']> doc !! i = Some el'.
Proof.
  intros Hi. apply list_lookup_insert_eq. by eapply lookup_lt_Some.
Qed.

Lemma write_checkbox i el v st :
  document st !! i = Some el →
  type_of el = Some "checkbox" →
  writeOptionValue i v st
  = Normal tt (set_document (<[i := checkCheckbox v el]> (document st)) st).
Proof.
  intros Hi Ht. unfold writeOptionValue. rewrite Hi. simpl.
  rewrite decide_True by done.
  unfold update_element. by rewrite (alter_lookup _ _ _ _ Hi).
Qed.

Lemma extract_checkbox doc i el :
  doc !! i = Some el →
  type_of el = Some "checkbox" →
  getIdAndOptionFromElement doc i
  = Ok (getOptionIdFromElement el,
        if indeterminate el then VNull else VBool (checked el)).
Proof.
  intros Hi Ht. unfold getIdAndOptionFromElement. rewrite Hi.
  simpl. by rewrite decide_True by done.
Qed.

(** C5: on a checkbox, applying the stored value [null] sets
    [indeterminate], applying any other stored value sets [checked] to
    [value === true]; extraction yields [null] for an indeterminate
    checkbox and the [checked] flag otherwise.  So [null] comes back from
    apply followed by extraction; a boolean comes back when the checkbox
    was not indeterminate before. *)
Theorem checkbox_tristate optionId (values : object) v i el st :
  document st !! i = Some el →
  type_of el = Some "checkbox" →
  values !! optionId = Some v →
  let el' :=
    match v with
    | VNull => set_indeterminate true el
    | _ => set_checked (strict_equal_true v) el
    end in
  let st' := set_document (<[i := el']> (document st)) st in
  applyOptionToElement optionId None i (Some values) st = Normal tt st'
  ∧ getIdAndOptionFromElement (document st) i
    = Ok (getOptionIdFromElement el,
          if indeterminate el then VNull else VBool (checked el))
  ∧ getIdAndOptionFromElement (document st') i
    = Ok (getOptionIdFromElement el,
          match v with
          | VNull => VNull
          | _ => if indeterminate el then VNull
                 else VBool (strict_equal_true v)
          end).
Proof.
  intros Hi Ht Hv el' st'.
  assert (el' = checkCheckbox v el) as Hel by (by destruct v).
  split; [|split].
  - rewrite (apply_stored _ _ _ _ _ Hv), (write_checkbox _ _ _ _ Hi Ht).
    unfold st'. by rewrite Hel.
  - by apply extract_checkbox.
  - assert (document st' !! i = Some el') as Hi'
      by (by eapply lookup_insert_element).
    rewrite (extract_checkbox _ _ _ Hi').
    + unfold el'. by destruct v.
    + unfold el'. by destruct v.
Qed.

(** ** Radio groups *)

Lemma forEach_update_document (f : nat → list element → list element)
    (inputs : list nat) st :
  forEach (λ r, update_document (f r)) inputs st
  = Normal tt
      (set_document (foldl (λ d r, f r d) (document st) inputs) st).
Proof.
  revert st. induction inputs as [|r inputs IH]; intros st; simpl.
  - by rewrite set_document_id.
  - unfold bind. unfold update_document at 1. by rewrite IH.
Qed.

Lemma set_checkedness_id e : set_checkedness (checked e) e = e.
Proof. by destruct e. Qed.

Lemma carries_value_setAttribute_checked v e :
  carries_value v (setAttribute "checked" "" e) = carries_value v e.
Proof.
  unfold carries_value, getAttribute, setAttribute. simpl.
  by rewrite !lookup_insert_ne by done.
Qed.

Lemma with_checked_attribute_idempotent v e :
  with_checked_attribute v (with_checked_attribute v e)
  = with_checked_attribute v e.
Proof.
  unfold with_checked_attribute.
  destruct (carries_value v e) eqn:Hc.
  - rewrite carries_value_setAttribute_checked, Hc.
    unfold setAttribute. simpl. by rewrite insert_insert_eq.
  - by rewrite Hc.
Qed.

Lemma with_checked_attribute_set_checkedness v b e :
  with_checked_attribute v (set_checkedness b e)
  = set_checkedness b (with_checked_attribute v e).
Proof.
  unfold with_checked_attribute.
  change (carries_value v (set_checkedness b e)) with (carries_value v e).
  by destruct (carries_value v e).
Qed.

(** What the loop leaves of a radio child as it is. *)
Lemma with_checked_attribute_frame v e :
  tagName (with_checked_attribute v e) = tagName e
  ∧ value (with_checked_attribute v e) = value e
  ∧ valueAfter (with_checked_attribute v e) = valueAfter e
  ∧ valueAttributeAfter (with_checked_attribute v e) = valueAttributeAfter e
  ∧ checked (with_checked_attribute v e) = checked e
  ∧ dirtyCheckedness (with_checked_attribute v e) = dirtyCheckedness e
  ∧ indeterminate (with_checked_attribute v e) = indeterminate e
  ∧ form (with_checked_attribute v e) = form e
  ∧ selectedElement (with_checked_attribute v e) = selectedElement e
  ∧ descendants (with_checked_attribute v e) = descendants e
  ∧ (∀ name, name ≠ "checked" →
       getAttribute name (with_checked_attribute v e) = getAttribute name e).
Proof.
  unfold with_checked_attribute. destruct (carries_value v e); [|done].
  repeat split. intros name Hne.
  unfold getAttribute, setAttribute. simpl. by rewrite lookup_insert_ne.
Qed.

Lemma is_checked_with_checked_attribute v e :
  is_checked (with_checked_attribute v e) = is_checked e || carries_value v e.
Proof.
  unfold with_checked_attribute. destruct (carries_value v e) eqn:Hc.
  - rewrite orb_true_r. unfold carries_value in Hc.
    apply andb_true_iff in Hc as [Hr _].
    unfold is_checked, getAttribute, hasAttribute, setAttribute in *. simpl.
    rewrite lookup_insert_ne by done. rewrite Hr. simpl.
    rewrite lookup_insert_eq. apply bool_decide_eq_true. eauto.
  - by rewrite orb_false_r.
Qed.

(** One [setAttribute("checked", "")]: the element itself gets the
    attribute, and nothing but the checkedness of any element changes. *)
Lemma lookup_setAttribute_checked r (doc : list element) k e :
  is_Some (doc !! r) →
  doc !! k = Some e →
  ∃ b, setAttribute_checked r doc !! k
       = Some (set_checkedness b
                 (if decide (k = r) then setAttribute "checked" "" e else e)).
Proof.
  intros [radio Hr] Hk. unfold setAttribute_checked. rewrite Hr.
  destruct (sets_checkedness radio).
  - rewrite list_lookup_imap, Hk. simpl.
    destruct (decide (k = r)) as [->|Hne]; [by exists true|].
    destruct (in_radio_button_group radio e); [by exists false|].
    exists (checked e). by rewrite set_checkedness_id.
  - destruct (decide (k = r)) as [->|Hne].
    + rewrite Hr in Hk. injection Hk as ->.
      rewrite list_lookup_insert_eq by (by eapply lookup_lt_Some).
      by exists (checked e).
    + rewrite list_lookup_insert_ne by done. rewrite Hk.
      exists (checked e). by rewrite set_checkedness_id.
Qed.

Lemma length_setAttribute_checked r (doc : list element) :
  length (setAttribute_checked r doc) = length doc.
Proof.
  unfold setAttribute_checked. destruct (doc !! r) as [radio|]; [|done].
  destruct (sets_checkedness radio).
  - apply length_imap.
  - apply length_insert.
Qed.

Lemma length_checkRadioElement v r (doc : list element) :
  length (checkRadioElement v r doc) = length doc.
Proof.
  unfold checkRadioElement. destruct (doc !! r) as [radio|]; [|done].
  destruct (carries_value v radio); [|done].
  apply length_setAttribute_checked.
Qed.

(** One round of the loop. *)
Lemma lookup_checkRadioElement v r (doc : list element) k e :
  doc !! k = Some e →
  ∃ b, checkRadioElement v r doc !! k
       = Some (set_checkedness b
                 (if decide (k = r) then with_checked_attribute v e else e)).
Proof.
  intros Hk. unfold checkRadioElement.
  destruct (doc !! r) as [radio|] eqn:Hr.
  - destruct (carries_value v radio) eqn:Hc.
    + destruct (lookup_setAttribute_checked r doc k e) as [b Hb]; [eauto|done|].
      exists b. rewrite Hb. destruct (decide (k = r)) as [->|]; [|done].
      rewrite Hr in Hk. injection Hk as ->.
      unfold with_checked_attribute. by rewrite Hc.
    + exists (checked e). rewrite Hk. f_equal.
      destruct (decide (k = r)) as [->|]; [|by rewrite set_checkedness_id].
      rewrite Hr in Hk. injection Hk as ->.
      unfold with_checked_attribute. by rewrite Hc, set_checkedness_id.
  - exists (checked e). rewrite Hk. f_equal.
    destruct (decide (k = r)) as [->|]; [congruence|].
    by rewrite set_checkedness_id.
Qed.

(** The elements of the document after the loop, one by one: a radio
    child that carries the value has the [checked] attribute, and nothing
    else but the checkedness of any element has changed. *)
Lemma lookup_checkRadioElements v (inputs : list nat) (doc : list element)
    k e :
  doc !! k = Some e →
  ∃ b, checkRadioElements v inputs doc !! k
       = Some (set_checkedness b
                 (if decide (k ∈ inputs) then with_checked_attribute v e
                  else e)).
Proof.
  unfold checkRadioElements. revert doc e.
  induction inputs as [|r inputs IH]; intros doc e Hk.
  - exists (checked e). simpl. rewrite Hk, set_checkedness_id.
    by destruct (decide (k ∈ [])) as [?%elem_of_nil|].
  - cbn [foldl].
    destruct (lookup_checkRadioElement v r doc k e Hk) as [b1 Hk1].
    destruct (IH _ _ Hk1) as [b Hb]. exists b. rewrite Hb. f_equal.
    destruct (decide (k = r)) as [->|Hne].
    + rewrite (decide_True (P := r ∈ r :: inputs))
        by (apply elem_of_cons; by left).
      destruct (decide (r ∈ inputs)).
      * by rewrite with_checked_attribute_set_checkedness,
          with_checked_attribute_idempotent.
      * done.
    + destruct (decide (k ∈ inputs)) as [Hin|Hin].
      * rewrite decide_True by (apply elem_of_cons; by right).
        by rewrite with_checked_attribute_set_checkedness.
      * rewrite decide_False; [done|].
        intros [?|?]%elem_of_cons; congruence.
Qed.

Lemma length_checkRadioElements v (inputs : list nat) (doc : list element) :
  length (checkRadioElements v inputs doc) = length doc.
Proof.
  unfold checkRadioElements. revert doc.
  induction inputs as [|r inputs IH]; intros doc; [done|].
  cbn [foldl]. by rewrite IH, length_checkRadioElement.
Qed.

Lemma lookup_checkRadioElements_None v inputs (doc : list element) k :
  doc !! k = None → checkRadioElements v inputs doc !! k = None.
Proof.
  intros Hk. apply lookup_ge_None. rewrite length_checkRadioElements.
  by apply lookup_ge_None.
Qed.

Lemma tagName_checkRadioElements v inputs (doc : list element) k :
  tagName <$> checkRadioElements v inputs doc !! k = tagName <$> doc !! k.
Proof.
  destruct (doc !! k) as [e|] eqn:Hk.
  - destruct (lookup_checkRadioElements v inputs doc k e Hk) as [b ->].
    simpl. f_equal. destruct (decide (k ∈ inputs)); [|done].
    apply with_checked_attribute_frame.
  - by rewrite lookup_checkRadioElements_None.
Qed.

Lemma getElementsByTagName_checkRadioElements v inputs doc e name :
  getElementsByTagName (checkRadioElements v inputs doc) e name
  = getElementsByTagName doc e name.
Proof.
  unfold getElementsByTagName. apply list_filter_iff. intros k.
  by rewrite tagName_checkRadioElements.
Qed.

Lemma is_checked_radio_after v inputs (doc : list element) k :
  k ∈ inputs →
  is_checked_radio (checkRadioElements v inputs doc) k
  = is_checked_radio doc k || from_option (carries_value v) false (doc !! k).
Proof.
  intros Hin. unfold is_checked_radio.
  destruct (doc !! k) as [e|] eqn:Hk.
  - destruct (lookup_checkRadioElements v inputs doc k e Hk) as [b ->].
    rewrite decide_True by done. simpl.
    change (is_checked (set_checkedness b (with_checked_attribute v e)))
      with (is_checked (with_checked_attribute v e)).
    apply is_checked_with_checked_attribute.
  - by rewrite lookup_checkRadioElements_None.
Qed.

Lemma find_ext_elem_of (f g : nat → bool) (l : list nat) :
  (∀ k, k ∈ l → f k = g k) → List.find f l = List.find g l.
Proof.
  induction l as [|x l IH]; intros H; simpl; [done|].
  rewrite (H x) by (apply elem_of_cons; by left).
  destruct (g x); [done|]. apply IH. intros k Hk. apply H.
  apply elem_of_cons. by right.
Qed.

Lemma write_radiogroup i el v st :
  document st !! i = Some el →
  type_of el = Some "radiogroup" →
  writeOptionValue i v st
  = Normal tt
      (set_document
         (checkRadioElements v (getElementsByTagName (document st) el "input")
                             (document st)) st).
Proof.
  intros Hi Ht. unfold writeOptionValue. rewrite Hi. simpl. rewrite Ht.
  rewrite decide_False by done. rewrite decide_True by done.
  apply forEach_update_document.
Qed.

Lemma write_plain i el v st :
  document st !! i = Some el →
  type_of el ≠ Some "checkbox" →
  type_of el ≠ Some "radiogroup" →
  writeOptionValue i v st
  = Normal tt (set_document (<[i := set_value v el]> (document st)) st).
Proof.
  intros Hi Hc Hr. unfold writeOptionValue. rewrite Hi. simpl.
  rewrite !decide_False by done.
  unfold update_element. by rewrite (alter_lookup _ _ _ _ Hi).
Qed.


Lemma find_first (f : nat → bool) (l pre post : list nat) j :
  l = pre ++ j :: post →
  Forall (λ k, f k = false) pre →
  f j = true →
  List.find f l = Some j.
Proof.
  intros -> Hpre Hj. induction Hpre as [|k pre Hk _ IH]; simpl.
  - by rewrite Hj.
  - by rewrite Hk.
Qed.

Lemma find_nothing (f : nat → bool) (l : list nat) :
  Forall (λ k, f k = false) l → List.find f l = None.
Proof. induction 1 as [|k l Hk _ IH]; simpl; [done|]. by rewrite Hk. Qed.

Lemma extract_radiogroup doc i el :
  doc !! i = Some el →
  type_of el = Some "radiogroup" →
  getIdAndOptionFromElement doc i
  = match getSelectedFromRadioGroup doc el with
    | Raise e => Raise e
    | Ok j =>
        match doc !! j with
        | None => Raise TypeError
        | Some elSelected =>
            Ok (match getOptionIdFromElement elSelected with
                | Some optionId => Some optionId
                | None => getOptionIdFromElement el
                end, value elSelected)
        end
    end.
Proof.
  intros Hi Ht. unfold getIdAndOptionFromElement. rewrite Hi. simpl.
  rewrite Ht. rewrite decide_False by done. by rewrite decide_True by done.
Qed.

Lemma extract_single i el st :
  document st !! i = Some el →
  getIdAndOptionsFromElement i false st
  = lift (getIdAndOptionFromElement (document st) i) st.
Proof. intros Hi. unfold getIdAndOptionsFromElement. by rewrite Hi. Qed.

(** C2, as the code has it: extraction from a radio group without a
    [selectedElement] marker and without a radio child that carries the
    [checked] attribute throws the error [no radio element is selected].
    When there is a selected child (the marker, or else the first radio
    child with the [checked] attribute), extraction returns without an
    error the value of that child and the id the child declares; a child
    that declares no id is reported under the id of the group element. *)
Theorem radiogroup_extraction doc i el :
  doc !! i = Some el →
  type_of el = Some "radiogroup" →
  (selectedElement el = None →
   Forall (λ k, is_checked_radio doc k = false)
          (getElementsByTagName doc el "input") →
   getIdAndOptionFromElement doc i = Raise (Error nothing_selected))
  ∧ (∀ j child,
       selectedElement el = Some j
       ∨ (selectedElement el = None
          ∧ ∃ pre post,
              getElementsByTagName doc el "input" = pre ++ j :: post
              ∧ Forall (λ k, is_checked_radio doc k = false) pre
              ∧ is_checked_radio doc j = true) →
       doc !! j = Some child →
       getIdAndOptionFromElement doc i
       = Ok (match getOptionIdFromElement child with
             | Some optionId => Some optionId
             | None => getOptionIdFromElement el
             end, value child)).
Proof.
  intros Hi Ht. rewrite (extract_radiogroup _ _ _ Hi Ht). split.
  - intros Hs Hnone. unfold getSelectedFromRadioGroup.
    by rewrite Hs, (find_nothing _ _ Hnone).
  - intros j child Hsel Hj.
    assert (getSelectedFromRadioGroup doc el = Ok j) as ->.
    { unfold getSelectedFromRadioGroup.
      destruct Hsel as [-> | (-> & pre & post & Hl & Hpre & Hchk)]; [done|].
      by rewrite (find_first _ _ _ _ _ Hl Hpre Hchk). }
    by rewrite Hj.
Qed.

(** ** Apply followed by extraction *)

Lemma extract_plain doc i el :
  doc !! i = Some el →
  type_of el ≠ Some "checkbox" →
  type_of el ≠ Some "radiogroup" →
  getIdAndOptionFromElement doc i
  = Ok (getOptionIdFromElement el,
        if decide (type_of el = Some "number" ∨ type_of el = Some "range")
        then Number (value el) else value el).
Proof.
  intros Hi Hc Hr. unfold getIdAndOptionFromElement. rewrite Hi. simpl.
  rewrite (decide_False (P := type_of el = Some "checkbox")) by done.
  rewrite (decide_False (P := type_of el = Some "radiogroup")) by done.
  destruct (decide (type_of el = Some "number")) as [Hn|Hn].
  - by rewrite decide_True by auto.
  - destruct (decide (type_of el = Some "range")) as [Hg|Hg].
    + by rewrite decide_True by auto.
    + by rewrite decide_False by (intros [?|?]; done).
Qed.

(** What a write leaves of an element. *)
Lemma same_markup_refl e : same_markup e e.
Proof. by repeat split. Qed.

Lemma same_markup_dispatch e e' :
  same_markup e e' →
  type_of e' = type_of e
  ∧ getOptionIdFromElement e' = getOptionIdFromElement e
  ∧ getAttribute "data-optiongroup" e' = getAttribute "data-optiongroup" e.
Proof.
  intros (_ & _ & _ & _ & _ & _ & Ha & _).
  unfold type_of, getOptionIdFromElement. by rewrite !Ha by done.
Qed.

Lemma same_markup_checkCheckbox v e : same_markup e (checkCheckbox v e).
Proof. destruct v; by repeat split. Qed.

Lemma same_markup_set_value v e : same_markup e (set_value v e).
Proof.
  unfold same_markup, set_value, getAttribute, hasAttribute. simpl.
  do 6 (split; [done|]).
  destruct (valueAttributeAfter e v) as [s|]; [|done].
  split.
  - intros name _ Hne. by rewrite lookup_insert_ne.
  - by rewrite lookup_insert_ne.
Qed.

Lemma same_markup_after_loop v b k (inputs : list nat) e :
  same_markup e
    (set_checkedness b
       (if decide (k ∈ inputs) then with_checked_attribute v e else e)).
Proof.
  destruct (decide (k ∈ inputs)); [|by repeat split].
  destruct (with_checked_attribute_frame v e)
    as (Ht & _ & Hva & Hvaa & _ & _ & _ & Hf & Hs & Hd & Ha).
  unfold same_markup. simpl.
  do 6 (split; [done|]). split.
  - intros name Hne _. by apply Ha.
  - unfold with_checked_attribute. destruct (carries_value v e); [|done].
    intros _. unfold hasAttribute, setAttribute. simpl.
    rewrite lookup_insert_eq. apply bool_decide_eq_true. eauto.
Qed.

Lemma type_of_set_value v e : type_of (set_value v e) = type_of e.
Proof. apply (same_markup_dispatch _ _ (same_markup_set_value v e)). Qed.

Lemma getOptionIdFromElement_set_value v e :
  getOptionIdFromElement (set_value v e) = getOptionIdFromElement e.
Proof. apply (same_markup_dispatch _ _ (same_markup_set_value v e)). Qed.

(** The radio group after the loop: the element itself may have gone
    through the loop, its type, marker and [input] elements are the
    same. *)
Lemma radiogroup_after_loop v i el (doc : list element) :
  doc !! i = Some el →
  type_of el = Some "radiogroup" →
  let inputs := getElementsByTagName doc el "input" in
  ∃ el',
    checkRadioElements v inputs doc !! i = Some el'
    ∧ type_of el' = Some "radiogroup"
    ∧ selectedElement el' = selectedElement el
    ∧ getOptionIdFromElement el' = getOptionIdFromElement el
    ∧ getElementsByTagName (checkRadioElements v inputs doc) el' "input"
      = inputs.
Proof.
  intros Hi Ht inputs.
  destruct (lookup_checkRadioElements v inputs doc i el Hi) as [b Hi'].
  pose proof (same_markup_after_loop v b i inputs el) as Hsame.
  destruct (same_markup_dispatch _ _ Hsame) as (Ht' & Hid' & _).
  destruct Hsame as (_ & Hd & Hs & _).
  eexists. split; [exact Hi'|]. split; [by rewrite Ht'|].
  split; [done|]. split; [done|].
  rewrite getElementsByTagName_checkRadioElements.
  unfold inputs, getElementsByTagName. f_equal. exact Hd.
Qed.

Lemma find_stronger (f g : nat → bool) (l : list nat) j :
  (∀ k, g k = true → f k = true) →
  List.find f l = Some j →
  g j = true →
  List.find g l = Some j.
Proof.
  intros Hgf. induction l as [|x l IH]; simpl; [done|].
  destruct (f x) eqn:Hf.
  - intros [= ->] Hj. by rewrite Hj.
  - intros Hfind Hj. destruct (g x) eqn:Hg; [|by apply IH].
    apply Hgf in Hg. congruence.
Qed.

(** Extraction from a radio group after the loop over its radio children,
    in terms of the page before the loop. *)
Lemma extract_radiogroup_after_write v i el (doc : list element) :
  doc !! i = Some el →
  type_of el = Some "radiogroup" →
  let inputs := getElementsByTagName doc el "input" in
  getIdAndOptionFromElement (checkRadioElements v inputs doc) i
  = match
      match selectedElement el with
      | Some elSelected => Ok elSelected
      | None =>
          match List.find
                  (λ k, is_checked_radio doc k
                        || from_option (carries_value v) false (doc !! k))
                  inputs with
          | Some radioElement => Ok radioElement
          | None => Raise (Error nothing_selected)
          end
      end
    with
    | Raise e => Raise e
    | Ok j =>
        match doc !! j with
        | None => Raise TypeError
        | Some elSelected =>
            Ok (match getOptionIdFromElement elSelected with
                | Some optionId => Some optionId
                | None => getOptionIdFromElement el
                end, value elSelected)
        end
    end.
Proof.
  intros Hi Ht inputs.
  destruct (radiogroup_after_loop v _ _ _ Hi Ht)
    as (el' & Hi' & Ht' & Hs' & Hid' & Hinputs).
  fold inputs in Hi', Hinputs.
  rewrite (extract_radiogroup _ _ _ Hi' Ht').
  unfold getSelectedFromRadioGroup. rewrite Hs', Hinputs, Hid'.
  rewrite (find_ext_elem_of (is_checked_radio (checkRadioElements v inputs doc))
             (λ k, is_checked_radio doc k
                   || from_option (carries_value v) false (doc !! k)))
    by (intros k Hk; by apply is_checked_radio_after).
  assert (∀ j, match checkRadioElements v inputs doc !! j with
               | None => Raise TypeError
               | Some elSelected =>
                   Ok (match getOptionIdFromElement elSelected with
                       | Some optionId => Some optionId
                       | None => getOptionIdFromElement el
                       end, value elSelected)
               end
               = match doc !! j with
                 | None => Raise TypeError
                 | Some elSelected =>
                     Ok (match getOptionIdFromElement elSelected with
                         | Some optionId => Some optionId
                         | None => getOptionIdFromElement el
                         end, value elSelected)
                 end) as Hsame.
  { intros j. destruct (doc !! j) as [c|] eqn:Hj.
    - destruct (lookup_checkRadioElements v inputs doc j c Hj) as [b ->].
      destruct (same_markup_dispatch
                  _ _ (same_markup_after_loop v b j inputs c))
        as (_ & -> & _).
      f_equal. f_equal. simpl. destruct (decide (j ∈ inputs)); [|done].
      apply with_checked_attribute_frame.
    - by rewrite lookup_checkRadioElements_None. }
  destruct (selectedElement el) as [s|]; [apply Hsame|].
  destruct (List.find _ inputs) as [j|]; [apply Hsame|done].
Qed.

Lemma write_then_extract i el v st :
  document st !! i = Some el →
  round_trips (document st) el v →
  ∃ st' optionId',
    writeOptionValue i v st = Normal tt st'
    ∧ getIdAndOptionFromElement (document st') i = Ok (optionId', v).
Proof.
  intros Hi Hfit. unfold round_trips in Hfit.
  destruct (decide (type_of el = Some "checkbox")) as [Hc|Hc].
  { eexists _, _. split; [by apply write_checkbox|]. simpl.
    rewrite (extract_checkbox _ i (checkCheckbox v el))
      by (by eapply lookup_insert_element || by destruct v).
    f_equal. f_equal.
    destruct Hfit as [-> | [[b ->] Hind]]; [done|].
    simpl. rewrite Hind. by destruct b. }
  destruct (decide (type_of el = Some "radiogroup")) as [Hr|Hr].
  { destruct Hfit as (Hs & j & child & Hfind & Hj & Hcarry & Hval).
    eexists _, _. split; [by apply write_radiogroup|]. simpl.
    rewrite (extract_radiogroup_after_write v _ _ _ Hi Hr).
    by rewrite Hs, Hfind, Hj, Hval. }
  eexists _, _. split; [by apply write_plain|]. simpl.
  rewrite (extract_plain _ i (set_value v el));
    [|by eapply lookup_insert_element|by rewrite type_of_set_value..].
  f_equal. f_equal. rewrite type_of_set_value. simpl.
  destruct (decide (type_of el = Some "number" ∨ type_of el = Some "range"));
    done.
Qed.

(** C3, as the code has it: when an option without a group is stored in
    the loaded values with a value that fits the control, applying it and
    then extracting from the same control returns that value.  A value
    fits a checkbox when it is [null], or a boolean and the checkbox is not
    indeterminate; it fits a radio group without a [selectedElement] marker
    when the first radio child that is already checked or carries the value
    as its [value] attribute is one that carries it, and holds it as its
    [value] property; it fits a numeric control when the control, once the
    value has been assigned to it, reads as that number; and it fits any
    other control when the control, once the value has been assigned to it,
    reads that very value.  What a control keeps is up to the control: a
    range input does not keep a number outside its range, a select element
    does not keep a string that is none of its options, and a text input
    keeps strings only. *)
Theorem apply_then_extract_round_trip
    optionId (values : object) v i el st :
  document st !! i = Some el →
  values !! optionId = Some v →
  round_trips (document st) el v →
  ∃ st' optionId',
    applyOptionToElement optionId None i (Some values) st = Normal tt st'
    ∧ getIdAndOptionFromElement (document st') i = Ok (optionId', v)
    ∧ getIdAndOptionsFromElement i false st' = Normal (optionId', v) st'.
Proof.
  intros Hi Hv Hfit.
  destruct (write_then_extract _ _ _ _ Hi Hfit) as (st' & id' & Hw & He).
  exists st', id'. rewrite (apply_stored _ _ _ _ _ Hv). split; [done|].
  split; [done|].
  destruct (document st' !! i) as [el'|] eqn:Hi'.
  - rewrite (extract_single _ _ _ Hi'). by rewrite He.
  - unfold getIdAndOptionFromElement in He. by rewrite Hi' in He.
Qed.


(** ** Defaults *)

Lemma resolve_default optionId optionGroup (values : object) f d st :
  hasOwnProperty values optionId = false →
  hasOwnProperty values (group_key optionGroup) = false →
  defaultOptionGetter st = GetterFunction f →
  provided_default (heap st) f optionId optionGroup = Ok d →
  resolveOptionValue optionId optionGroup (Some values) st
  = Normal (match d with VUndefined => None | _ => Some d end) st.
Proof.
  intros Ho Hg Hf Hd. unfold resolveOptionValue. rewrite Ho, Hg. simpl.
  unfold bind, getDefault. rewrite Hf. unfold provided_default in Hd.
  destruct optionGroup as [g|].
  - rewrite Hd. simpl. by destruct d.
  - injection Hd as ->. by destruct d.
Qed.

(** The silent skip: nothing is stored for the option, and the provider
    is [null] or has no default for it.  The call returns and leaves the
    whole state, the controls included, as it was. *)
Lemma apply_without_default optionId optionGroup (values : object) i st :
  hasOwnProperty values optionId = false →
  hasOwnProperty values (group_key optionGroup) = false →
  defaultOptionGetter st = GetterNull
  ∨ (∃ f, defaultOptionGetter st = GetterFunction f
          ∧ provided_default (heap st) f optionId optionGroup = Ok VUndefined) →
  applyOptionToElement optionId optionGroup i (Some values) st = Normal tt st.
Proof.
  intros Ho Hg [Hnull | (f & Hf & Hd)]; unfold applyOptionToElement, bind.
  - unfold resolveOptionValue. rewrite Ho, Hg. simpl.
    unfold bind, getDefault. by rewrite Hnull.
  - by rewrite (resolve_default _ _ _ _ _ _ Ho Hg Hf Hd).
Qed.

(** The provider has nothing for the group of the option: reading the
    option inside [undefined] or [null] throws. *)
Lemma apply_without_group_default optionId g (values : object) f i st :
  hasOwnProperty values optionId = false →
  hasOwnProperty values g = false →
  defaultOptionGetter st = GetterFunction f →
  f g = VUndefined ∨ f g = VNull →
  applyOptionToElement optionId (Some g) i (Some values) st
  = Throw TypeError st.
Proof.
  intros Ho Hg Hf Hd. unfold applyOptionToElement, bind, resolveOptionValue.
  simpl. rewrite Ho, Hg. simpl. unfold bind, getDefault. rewrite Hf.
  by destruct Hd as [-> | ->].
Qed.

(** C8, as the code has it: when neither the option id nor the group
    argument is a key of the loaded values (an option without a group is
    looked up under the key [null] as its group) and the registered
    provider has a default that is not [undefined] (for an option of a
    group: the entry of the option in what the provider returns for the
    group id), [applyOptionToElement] returns, changes nothing but the
    page, and writes that default to the control exactly as it writes a
    stored value: a checkbox becomes indeterminate for [null] and is
    checked according to [default === true] otherwise, in a radio group
    every radio child with the default as its [value] attribute gets the
    [checked] attribute, and any other control is assigned the default as
    its [value].  The value of the control, what extraction reads from it
    afterwards, is the default when the default fits the control, as a
    stored value must fit it to come back. *)
Theorem apply_uses_default
    optionId optionGroup (values : object) f d i el st :
  hasOwnProperty values optionId = false →
  hasOwnProperty values (group_key optionGroup) = false →
  defaultOptionGetter st = GetterFunction f →
  provided_default (heap st) f optionId optionGroup = Ok d →
  d ≠ VUndefined →
  document st !! i = Some el →
  ∃ doc',
    applyOptionToElement optionId optionGroup i (Some values) st
    = Normal tt (set_document doc' st)
    ∧ applyOptionToElement optionId None i (Some {[optionId := d]}) st
      = Normal tt (set_document doc' st)
    ∧ (if decide (type_of el = Some "checkbox") then
         doc' = <[i := match d with
                       | VNull => set_indeterminate true el
                       | _ => set_checked (strict_equal_true d) el
                       end]> (document st)
       else if decide (type_of el = Some "radiogroup") then
         ∀ k child,
           k ∈ getElementsByTagName (document st) el "input" →
           document st !! k = Some child →
           carries_value d child = true →
           ∃ b, doc' !! k
                = Some (set_checkedness b (setAttribute "checked" "" child))
       else
         doc' = <[i := set_value d el]> (document st))
    ∧ (round_trips (document st) el d →
       ∃ optionId',
         getIdAndOptionFromElement doc' i = Ok (optionId', d)
         ∧ getIdAndOptionsFromElement i false (set_document doc' st)
           = Normal (optionId', d) (set_document doc' st)).
Proof.
  intros Ho Hg Hf Hd Hdef Hi.
  assert (applyOptionToElement optionId optionGroup i (Some values) st
          = writeOptionValue i d st) as ->.
  { unfold applyOptionToElement, bind.
    rewrite (resolve_default _ _ _ _ _ _ Ho Hg Hf Hd). by destruct d. }
  rewrite (apply_stored optionId {[optionId := d]} d)
    by apply lookup_singleton_eq.
  assert (∃ doc',
            writeOptionValue i d st = Normal tt (set_document doc' st)
            ∧ if decide (type_of el = Some "checkbox") then
                doc' = <[i := match d with
                              | VNull => set_indeterminate true el
                              | _ => set_checked (strict_equal_true d) el
                              end]> (document st)
              else if decide (type_of el = Some "radiogroup") then
                ∀ k child,
                  k ∈ getElementsByTagName (document st) el "input" →
                  document st !! k = Some child →
                  carries_value d child = true →
                  ∃ b, doc' !! k
                       = Some (set_checkedness b
                                 (setAttribute "checked" "" child))
              else
                doc' = <[i := set_value d el]> (document st))
    as (doc' & Hw & Hkind).
  { destruct (decide (type_of el = Some "checkbox")) as [Hc|Hc].
    { eexists. split; [by apply write_checkbox|]. by destruct d. }
    destruct (decide (type_of el = Some "radiogroup")) as [Hr|Hr].
    { eexists. split; [by apply write_radiogroup|].
      intros k child Hk Hchild Hcarry.
      destruct (lookup_checkRadioElements d
                  (getElementsByTagName (document st) el "input")
                  (document st) k child Hchild) as [b Hb].
      exists b. rewrite Hb, decide_True by done.
      unfold with_checked_attribute. by rewrite Hcarry. }
    eexists. split; [by apply write_plain|done]. }
  exists doc'. split; [done|]. split; [done|]. split; [done|].
  intros Hfit.
  destruct (write_then_extract _ _ _ _ Hi Hfit) as (st' & id' & Hw' & He).
  rewrite Hw in Hw'. injection Hw' as <-. exists id'. split; [exact He|].
  simpl in He.
  destruct (doc' !! i) as [el'|] eqn:Hi'.
  - rewrite (extract_single i el') by done. simpl. by rewrite He.
  - unfold getIdAndOptionFromElement in He. by rewrite Hi' in He.
Qed.


(** ** Extraction of a group *)

Lemma collect_lookup_other seed pairs k :
  k ∉ keys pairs → collect seed pairs !! k = seed !! k.
Proof.
  revert seed. induction pairs as [|p pairs IH]; intros seed Hk; [done|].
  unfold keys in Hk. rewrite fmap_cons in Hk.
  apply not_elem_of_cons in Hk as [Hne Hk].
  unfold collect. simpl. fold (collect (write_pair seed p) pairs).
  rewrite IH by done. unfold write_pair. by rewrite lookup_insert_ne.
Qed.

Lemma collect_lookup_last seed pairs ps1 p ps2 :
  pairs = ps1 ++ p :: ps2 →
  id_key p.1 ∉ keys ps2 →
  collect seed pairs !! id_key p.1 = Some p.2.
Proof.
  intros -> Hk. unfold collect. rewrite foldl_app. simpl.
  fold (collect (write_pair (foldl write_pair seed ps1) p) ps2).
  rewrite collect_lookup_other by done.
  unfold write_pair. by rewrite lookup_insert_eq.
Qed.

Lemma collect_lookup_Some seed pairs k v :
  collect seed pairs !! k = Some v → k ∈ keys pairs ∨ seed !! k = Some v.
Proof.
  intros H. destruct (decide (k ∈ keys pairs)) as [|Hk]; [by left|].
  right. by rewrite collect_lookup_other in H.
Qed.

(** The members of a group are the elements that declare it. *)
Lemma elem_of_querySelectorAll_optiongroup (doc : list element) G (m : nat) :
  m ∈ querySelectorAll_optiongroup doc G
  ↔ ∃ e, doc !! m = Some e ∧ getAttribute "data-optiongroup" e = Some G.
Proof.
  unfold querySelectorAll_optiongroup.
  rewrite list_elem_of_filter, elem_of_seq. split.
  - intros [H _]. destruct (doc !! m) as [e|]; [|done]. by exists e.
  - intros (e & Hm & Hg). rewrite Hm. simpl. split; [done|].
    apply lookup_lt_Some in Hm. lia.
Qed.

Lemma forEach_collectOption doc l members pairs :
  Forall2 (λ m p, getIdAndOptionFromElement doc m = Ok p) members pairs →
  ∀ st o,
    document st = doc →
    heap st !! l = Some o →
    forEach (collectOption (VObject l)) members st
    = Normal tt (set_heap (<[l := collect o pairs]> (heap st)) st).
Proof.
  induction 1 as [|m p members pairs Hm _ IH]; intros st o Hdoc Hl.
  - simpl. unfold ret. by rewrite insert_id, set_heap_id.
  - cbn [forEach]. unfold bind at 1. unfold collectOption at 1.
    unfold bind, read. rewrite Hdoc, Hm. simpl. rewrite Hl.
    rewrite (IH _ (write_pair o p)); [|done|by apply lookup_insert_eq].
    simpl. by rewrite insert_insert_eq.
Qed.

(** A member that cannot be extracted ends the collection with its
    exception. *)
Lemma forEach_collectOption_throws doc l members m e :
  m ∈ members →
  getIdAndOptionFromElement doc m = Raise e →
  ∀ st, document st = doc →
        ∃ e' st', forEach (collectOption (VObject l)) members st = Throw e' st'.
Proof.
  induction members as [|m' members IH]; intros Hin Hm st Hdoc.
  - by apply elem_of_nil in Hin.
  - cbn [forEach]. unfold bind at 1.
    destruct (collectOption (VObject l) m' st) as [[] st1|e1 st1] eqn:Hstep;
      [|by eauto].
    apply elem_of_cons in Hin as [->|Hin].
    + unfold collectOption, bind, read in Hstep.
      by rewrite Hdoc, Hm in Hstep.
    + apply IH; [done..|].
      unfold collectOption, bind, read in Hstep. rewrite Hdoc in Hstep.
      destruct (getIdAndOptionFromElement doc m'); simpl in Hstep; [|done].
      unfold set_property in Hstep.
      destruct (heap st !! l); [|done]. by injection Hstep as <-.
Qed.

Lemma extract_group_remembered i el G r l o pairs st :
  document st !! i = Some el →
  getAttribute "data-optiongroup" el = Some G →
  rememberedOptions st = Some r →
  r !! G = Some (VObject l) →
  heap st !! l = Some o →
  Forall2 (λ m p, getIdAndOptionFromElement (document st) m = Ok p)
          (querySelectorAll_optiongroup (document st) G) pairs →
  getIdAndOptionsFromElement i true st
  = Normal (Some G, VObject l)
           (set_heap (<[l := collect o pairs]> (heap st)) st).
Proof.
  intros Hi HG Hr Hentry Hl Hpairs.
  unfold getIdAndOptionsFromElement. rewrite Hi, HG.
  unfold bind at 1. unfold rememberedOrNew. rewrite Hr.
  rewrite (hasOwnProperty_lookup _ _ _ Hentry).
  unfold get. rewrite Hentry. simpl. unfold bind.
  by rewrite (forEach_collectOption _ _ _ _ Hpairs st o).
Qed.

Lemma extract_group_new i el G r pairs st :
  document st !! i = Some el →
  getAttribute "data-optiongroup" el = Some G →
  rememberedOptions st = Some r →
  r !! G = None →
  Forall2 (λ m p, getIdAndOptionFromElement (document st) m = Ok p)
          (querySelectorAll_optiongroup (document st) G) pairs →
  getIdAndOptionsFromElement i true st
  = Normal (Some G, VObject (fresh (dom (heap st))))
           (set_heap (<[fresh (dom (heap st)) := collect ∅ pairs]> (heap st))
                     st).
Proof.
  intros Hi HG Hr Hentry Hpairs.
  unfold getIdAndOptionsFromElement. rewrite Hi, HG.
  unfold bind at 1. unfold rememberedOrNew. rewrite Hr.
  apply hasOwnProperty_false in Hentry. rewrite Hentry.
  unfold new_object. unfold bind.
  set (l := fresh (dom (heap st))).
  rewrite (forEach_collectOption _ l _ _ Hpairs _ ∅);
    [|done|by apply lookup_insert_eq].
  simpl. by rewrite insert_insert_eq.
Qed.


(** The other direction: a collection that returns has extracted every
    member. *)
Lemma forEach_collectOption_returns doc l members :
  ∀ st st' o,
    document st = doc →
    heap st !! l = Some o →
    forEach (collectOption (VObject l)) members st = Normal tt st' →
    ∃ pairs,
      Forall2 (λ m p, getIdAndOptionFromElement doc m = Ok p) members pairs.
Proof.
  induction members as [|m members IH]; intros st st' o Hdoc Hl Hrun.
  - exists []. constructor.
  - cbn [forEach] in Hrun. unfold bind at 1 in Hrun.
    unfold collectOption at 1 in Hrun. unfold bind, read in Hrun.
    rewrite Hdoc in Hrun.
    destruct (getIdAndOptionFromElement doc m) as [p|e] eqn:Hm;
      simpl in Hrun; [|done].
    rewrite Hl in Hrun.
    apply (IH _ _ (<[id_key p.1 := p.2]> o)) in Hrun as [pairs Hpairs];
      [|done|by apply lookup_insert_eq].
    exists (p :: pairs). by constructor.
Qed.

(** Nothing can be collected in a value that is not an object. *)
Lemma forEach_collectOption_not_object v m members st st' :
  (∀ l, v = VObject l → heap st !! l = None) →
  forEach (collectOption v) (m :: members) st ≠ Normal tt st'.
Proof.
  intros Hv. cbn [forEach]. unfold bind at 1.
  unfold collectOption at 1. unfold bind, read.
  destruct (getIdAndOptionFromElement (document st) m) as [p|e]; [|done].
  simpl. unfold set_property. destruct v; try done.
  by rewrite (Hv l eq_refl).
Qed.

(** The aggregate of a group, when the parts it is made of are fine. *)
Lemma extract_group i el G r pairs st :
  document st !! i = Some el →
  getAttribute "data-optiongroup" el = Some G →
  rememberedOptions st = Some r →
  (∀ v, r !! G = Some v → ∃ l, v = VObject l ∧ is_Some (heap st !! l)) →
  Forall2 (λ m p, getIdAndOptionFromElement (document st) m = Ok p)
          (querySelectorAll_optiongroup (document st) G) pairs →
  ∃ l,
    getIdAndOptionsFromElement i true st
    = Normal (Some G, VObject l)
        (set_heap (<[l := collect (remembered_group st G) pairs]> (heap st))
                  st)
    ∧ (∀ v, r !! G = Some v → v = VObject l).
Proof.
  intros Hi HG Hr Hobj Hpairs.
  destruct (r !! G) as [v|] eqn:Hentry.
  - destruct (Hobj v eq_refl) as (l & -> & o & Hl).
    assert (remembered_group st G = o) as ->.
    { unfold remembered_group. rewrite Hr. simpl. by rewrite Hentry, Hl. }
    exists l. split; [by eapply extract_group_remembered|].
    by intros ? [= <-].
  - assert (remembered_group st G = ∅) as ->.
    { unfold remembered_group. rewrite Hr. simpl. by rewrite Hentry. }
    eexists. split; [by eapply extract_group_new|done].
Qed.

(** A group extraction that returns has found [rememberedOptions]
    initialised, an object (if anything) under the group, and every member
    extractable. *)
Lemma extract_group_returns i el G st res st' :
  document st !! i = Some el →
  getAttribute "data-optiongroup" el = Some G →
  getIdAndOptionsFromElement i true st = Normal res st' →
  ∃ r pairs,
    rememberedOptions st = Some r
    ∧ (∀ v, r !! G = Some v → ∃ l, v = VObject l ∧ is_Some (heap st !! l))
    ∧ Forall2 (λ m p, getIdAndOptionFromElement (document st) m = Ok p)
              (querySelectorAll_optiongroup (document st) G) pairs.
Proof.
  intros Hi HG Hcall.
  assert (i ∈ querySelectorAll_optiongroup (document st) G) as Hin
    by (apply elem_of_querySelectorAll_optiongroup; eauto).
  unfold getIdAndOptionsFromElement in Hcall. rewrite Hi, HG in Hcall.
  unfold bind at 1 in Hcall. unfold rememberedOrNew in Hcall.
  destruct (rememberedOptions st) as [r|] eqn:Hr; [|done].
  exists r.
  destruct (querySelectorAll_optiongroup (document st) G)
    as [|m members] eqn:Hmembers; [by apply elem_of_nil in Hin|].
  destruct (hasOwnProperty r G) eqn:Hhas.
  - apply hasOwnProperty_true in Hhas as [v Hentry].
    assert (get r G = v) as Hget by (unfold get; by rewrite Hentry).
    rewrite Hget in Hcall. unfold bind in Hcall.
    destruct (forEach (collectOption v) (m :: members) st)
      as [[] st1|] eqn:Hrun; [|done].
    assert (∃ l o, v = VObject l ∧ heap st !! l = Some o) as (l & o & -> & Hl).
    { destruct v as [| | | | |l];
        try (by apply forEach_collectOption_not_object in Hrun).
      destruct (heap st !! l) as [o|] eqn:Hl; [by eauto|].
      apply forEach_collectOption_not_object in Hrun; [done|].
      by intros ? [= <-]. }
    destruct (forEach_collectOption_returns _ _ _ _ _ _ eq_refl Hl Hrun)
      as [pairs Hpairs].
    exists pairs. split; [done|]. split; [|done].
    intros v Hv. rewrite Hentry in Hv. injection Hv as <-. eauto.
  - unfold new_object, bind in Hcall.
    destruct (forEach _ (m :: members) _) as [[] st1|] eqn:Hrun; [|done].
    apply (forEach_collectOption_returns (document st) _ _ _ _ ∅) in Hrun
      as [pairs Hpairs]; [|done|by apply lookup_insert_eq].
    exists pairs. split; [done|]. split; [|done].
    apply hasOwnProperty_false in Hhas. intros v Hv. by rewrite Hhas in Hv.
Qed.

(** C1: for a control that declares the group [G], every call
    [getIdAndOptionsFromElement(elOption, true)] that returns, returns [G]
    together with an aggregate object.  The aggregate is the remembered
    group of [G], or the empty map when nothing is remembered, with the
    pair of every control of the document that declares [G] (the invoking
    one is among them) written into it in document order: each member's
    value is found under its id, and every key that no member writes keeps
    its remembered value.  The call does return when [rememberedOptions]
    is initialised, what it holds for [G] is an object, and every member
    can be extracted on its own. *)
Theorem group_extraction_aggregate i el G st :
  document st !! i = Some el →
  getAttribute "data-optiongroup" el = Some G →
  let members := querySelectorAll_optiongroup (document st) G in
  let seed := remembered_group st G in
  i ∈ members
  ∧ (∀ m, m ∈ members
          ↔ ∃ e, document st !! m = Some e
                 ∧ getAttribute "data-optiongroup" e = Some G)
  ∧ (∀ res st',
       getIdAndOptionsFromElement i true st = Normal res st' →
       ∃ l pairs,
         res = (Some G, VObject l)
         ∧ Forall2 (λ m p, getIdAndOptionFromElement (document st) m = Ok p)
                   members pairs
         ∧ heap st' !! l = Some (collect seed pairs)
         ∧ (∀ ps1 p ps2,
              pairs = ps1 ++ p :: ps2 →
              id_key p.1 ∉ keys ps2 →
              collect seed pairs !! id_key p.1 = Some p.2)
         ∧ (∀ k, k ∉ keys pairs → collect seed pairs !! k = seed !! k))
  ∧ (∀ r pairs,
       rememberedOptions st = Some r →
       (∀ v, r !! G = Some v → ∃ l, v = VObject l ∧ is_Some (heap st !! l)) →
       Forall2 (λ m p, getIdAndOptionFromElement (document st) m = Ok p)
               members pairs →
       ∃ res st', getIdAndOptionsFromElement i true st = Normal res st').
Proof.
  intros Hi HG members seed.
  split; [apply elem_of_querySelectorAll_optiongroup; eauto|].
  split; [intros m; apply elem_of_querySelectorAll_optiongroup|].
  split.
  - intros res st' Hcall.
    destruct (extract_group_returns _ _ _ _ _ _ Hi HG Hcall)
      as (r & pairs & Hr & Hobj & Hpairs).
    destruct (extract_group _ _ _ _ _ _ Hi HG Hr Hobj Hpairs)
      as (l & Hresult & _).
    rewrite Hresult in Hcall. injection Hcall as <- <-.
    exists l, pairs. split; [done|]. split; [done|].
    split; [apply lookup_insert_eq|]. split.
    + intros ps1 p ps2. apply collect_lookup_last.
    + intros k. apply collect_lookup_other.
  - intros r pairs Hr Hobj Hpairs.
    destruct (extract_group _ _ _ _ _ _ Hi HG Hr Hobj Hpairs)
      as (l & Hresult & _).
    eauto.
Qed.

(** C10: when [rememberedOptions] holds an entry for [G], every group
    extraction that returns has returned that very entry, an object, and
    has written the pairs of the controls of the group into it.  After the
    call the entry for [G] is still that object, so the remembered group
    equals the returned aggregate and holds the value of every member
    under its id.  The call does return when the entry is an object and
    every member can be extracted on its own. *)
Theorem group_extraction_updates_remembered i el G r v st :
  document st !! i = Some el →
  getAttribute "data-optiongroup" el = Some G →
  rememberedOptions st = Some r →
  r !! G = Some v →
  let members := querySelectorAll_optiongroup (document st) G in
  (∀ res st',
     getIdAndOptionsFromElement i true st = Normal res st' →
     ∃ l o pairs,
       v = VObject l
       ∧ heap st !! l = Some o
       ∧ Forall2 (λ m p, getIdAndOptionFromElement (document st) m = Ok p)
                 members pairs
       ∧ res = (Some G, VObject l)
       ∧ rememberedOptions st' = Some r
       ∧ heap st' !! l = Some (collect o pairs)
       ∧ remembered_group st' G = collect o pairs
       ∧ (∀ ps1 p ps2,
            pairs = ps1 ++ p :: ps2 →
            id_key p.1 ∉ keys ps2 →
            remembered_group st' G !! id_key p.1 = Some p.2))
  ∧ (∀ l o pairs,
       v = VObject l →
       heap st !! l = Some o →
       Forall2 (λ m p, getIdAndOptionFromElement (document st) m = Ok p)
               members pairs →
       ∃ res st', getIdAndOptionsFromElement i true st = Normal res st').
Proof.
  intros Hi HG Hr Hentry members. split.
  - intros res st' Hcall.
    destruct (extract_group_returns _ _ _ _ _ _ Hi HG Hcall)
      as (r' & pairs & Hr' & Hobj & Hpairs).
    rewrite Hr in Hr'. injection Hr' as <-.
    destruct (Hobj v Hentry) as (l & -> & o & Hl).
    rewrite (extract_group_remembered _ _ _ _ _ _ _ _
               Hi HG Hr Hentry Hl Hpairs) in Hcall.
    injection Hcall as <- <-.
    assert (remembered_group
              (set_heap (<[l := collect o pairs]> (heap st)) st) G
            = collect o pairs) as Hgroup.
    { unfold remembered_group. simpl. rewrite Hr. simpl. rewrite Hentry.
      by rewrite lookup_insert_eq. }
    exists l, o, pairs. repeat (split; [done|]).
    split; [apply lookup_insert_eq|]. split; [done|].
    intros ps1 p ps2 Hps Hk. rewrite Hgroup. by eapply collect_lookup_last.
  - intros l o pairs -> Hl Hpairs. eexists _, _.
    by eapply extract_group_remembered.
Qed.


(** ** The life cycle of the remembered options *)

Lemma forEach_preserves {A B} (body : A → M unit) (g : state → B) :
  (∀ x st, g (final_state (body x st)) = g st) →
  ∀ l st, g (final_state (forEach body l st)) = g st.
Proof.
  intros Hbody. induction l as [|x l IH]; intros st; [done|].
  cbn [forEach]. unfold bind. specialize (Hbody x st).
  destruct (body x st) as [[] st1|e st1]; simpl in *; [|done].
  by rewrite IH.
Qed.

Lemma collectOption_remembered o m st :
  rememberedOptions (final_state (collectOption o m st))
  = rememberedOptions st.
Proof.
  unfold collectOption, bind, read.
  destruct (getIdAndOptionFromElement (document st) m) as [p|e]; [|done].
  simpl. unfold set_property. destruct o; try done.
  by destruct (heap st !! l).
Qed.

(** Extraction never adds, removes or replaces an entry. *)
Lemma extract_remembered i useDatagroup st :
  rememberedOptions (final_state (getIdAndOptionsFromElement i useDatagroup st))
  = rememberedOptions st.
Proof.
  unfold getIdAndOptionsFromElement.
  destruct (document st !! i) as [el|]; [|done].
  destruct (if useDatagroup then getAttribute "data-optiongroup" el else None)
    as [G|].
  - unfold bind at 1.
    assert (∀ v st1, rememberedOptions st1 = rememberedOptions st →
              rememberedOptions
                (final_state
                   (bind (forEach (collectOption v)
                            (querySelectorAll_optiongroup (document st) G))
                         (λ _, ret (Some G, v)) st1))
              = rememberedOptions st) as Hrest.
    { intros v st1 H1. unfold bind.
      pose proof (forEach_preserves (collectOption v) rememberedOptions
                    (collectOption_remembered v)
                    (querySelectorAll_optiongroup (document st) G) st1) as H.
      destruct (forEach _ _ st1); simpl in *; congruence. }
    unfold rememberedOrNew. destruct (rememberedOptions st) as [r|] eqn:Hr;
      [|by simpl].
    destruct (hasOwnProperty r G).
    + by apply Hrest.
    + unfold new_object. by apply Hrest.
  - unfold read. by destruct (getIdAndOptionFromElement _ _).
Qed.

Lemma write_remembered i v st :
  rememberedOptions (final_state (writeOptionValue i v st))
  = rememberedOptions st.
Proof.
  unfold writeOptionValue. destruct (document st !! i) as [el|]; [|done].
  simpl. repeat case_decide; try done.
  by rewrite forEach_update_document.
Qed.

(** What resolving the value of an option does to the entries: nothing,
    or it adds the stored group of the option. *)
Lemma resolve_remembered optionId optionGroup values st :
  let st' := final_state (resolveOptionValue optionId optionGroup values st) in
  rememberedOptions st' = rememberedOptions st
  ∨ ∃ g (vals r : object),
      optionGroup = Some g ∧ values = Some vals
      ∧ hasOwnProperty vals optionId || hasOwnProperty vals g = true
      ∧ rememberedOptions st = Some r ∧ r !! g = None
      ∧ rememberedOptions st' = Some (<[g := get vals g]> r).
Proof.
  unfold resolveOptionValue. destruct values as [vals|]; [|by left].
  destruct (negb (hasOwnProperty vals optionId)
            && negb (hasOwnProperty vals (group_key optionGroup))) eqn:Hkeys.
  - left. unfold bind, getDefault.
    destruct (defaultOptionGetter st) as [| |f]; try done.
    destruct optionGroup as [g|].
    + destruct (get_property (heap st) (f g) optionId) as [d|]; [|done].
      by destruct d.
    + by destruct (f optionId).
  - destruct optionGroup as [g|]; [|by left]. simpl in Hkeys.
    unfold bind, read.
    destruct (get_property (heap st) (get vals g) optionId); [|by left].
    simpl. unfold rememberOptions.
    destruct (rememberedOptions st) as [r|] eqn:Hr;
      [|left; simpl; by rewrite Hr].
    destruct (hasOwnProperty r g) eqn:Hg; [by left|].
    right. exists g, vals, r. repeat split; try done.
    + apply andb_false_iff in Hkeys as [H|H]; apply negb_false_iff in H;
        rewrite H; [done | apply orb_true_r].
    + by apply hasOwnProperty_false.
Qed.

Lemma apply_remembered optionId optionGroup i values st :
  let st' :=
    final_state (applyOptionToElement optionId optionGroup i values st) in
  rememberedOptions st' = rememberedOptions st
  ∨ ∃ g (vals r : object),
      optionGroup = Some g ∧ values = Some vals
      ∧ hasOwnProperty vals optionId || hasOwnProperty vals g = true
      ∧ rememberedOptions st = Some r ∧ r !! g = None
      ∧ rememberedOptions st' = Some (<[g := get vals g]> r).
Proof.
  pose proof (resolve_remembered optionId optionGroup values st) as H.
  unfold applyOptionToElement, bind. simpl in *.
  destruct (resolveOptionValue optionId optionGroup values st)
    as [[v|] st1|e st1]; simpl in *; [|done..].
  by rewrite write_remembered.
Qed.

(** An apply that reads the option from its stored group remembers the
    group, whatever happens to the control afterwards. *)
Lemma apply_remembers optionId g i (vals r : object) l o st :
  vals !! g = Some (VObject l) →
  heap st !! l = Some o →
  rememberedOptions st = Some r →
  is_remembered
    (final_state (applyOptionToElement optionId (Some g) i (Some vals) st)) g
  = true.
Proof.
  intros Hg Hl Hr. unfold applyOptionToElement, bind, resolveOptionValue.
  simpl. rewrite (hasOwnProperty_lookup _ _ _ Hg), andb_false_r.
  unfold bind, read, get. rewrite Hg. simpl. rewrite Hl. simpl.
  unfold rememberOptions. rewrite Hr.
  destruct (hasOwnProperty r g) eqn:Hrg; simpl;
    unfold is_remembered; rewrite write_remembered; simpl.
  - by rewrite Hr.
  - eapply hasOwnProperty_lookup. apply lookup_insert_eq.
Qed.

(** C6, as the code has it.  An entry for a group appears in
    [rememberedOptions] only through an [applyOptionToElement] that finds
    the option id or the group id in the loaded values and reads the
    option from the stored group; such an apply leaves the group
    remembered.  An apply never removes or replaces an entry, extraction
    never adds, removes or replaces one (it only writes into the object
    that is remembered), [setDefaultOptionProvider] and [isReady] leave
    the entries alone, and [resetRememberedOptions] removes them all.
    After a reset the extraction of a group returns an aggregate that
    holds the pairs of the controls of the group and nothing else, and the
    group is still not remembered. *)
Theorem remembered_options_life_cycle i el G pairs st :
  document st !! i = Some el →
  getAttribute "data-optiongroup" el = Some G →
  Forall2 (λ m p, getIdAndOptionFromElement (document st) m = Ok p)
          (querySelectorAll_optiongroup (document st) G) pairs →
  (∀ st0 g, is_remembered (final_state (resetRememberedOptions st0)) g = false)
  ∧ (∀ st0 j useDatagroup,
       rememberedOptions
         (final_state (getIdAndOptionsFromElement j useDatagroup st0))
       = rememberedOptions st0)
  ∧ (∀ st0 defaultOptionCallback,
       rememberedOptions
         (final_state (setDefaultOptionProvider defaultOptionCallback st0))
       = rememberedOptions st0
       ∧ rememberedOptions (final_state (isReady st0))
         = rememberedOptions st0)
  ∧ (∀ st0 optionId optionGroup j values g,
       let st1 :=
         final_state (applyOptionToElement optionId optionGroup j values st0) in
       (is_remembered st0 g = true →
        rememberedOptions st1 ≫= (.!! g) = rememberedOptions st0 ≫= (.!! g))
       ∧ (is_remembered st0 g = false →
          is_remembered st1 g = true →
          optionGroup = Some g
          ∧ ∃ vals : object,
              values = Some vals
              ∧ hasOwnProperty vals optionId || hasOwnProperty vals g = true
              ∧ rememberedOptions st1 ≫= (.!! g) = Some (get vals g)))
  ∧ (∀ st0 optionId g j (vals r : object) l o,
       vals !! g = Some (VObject l) →
       heap st0 !! l = Some o →
       rememberedOptions st0 = Some r →
       is_remembered
         (final_state
            (applyOptionToElement optionId (Some g) j (Some vals) st0)) g
       = true)
  ∧ ∃ l st',
      bind resetRememberedOptions (λ _, getIdAndOptionsFromElement i true) st
      = Normal (Some G, VObject l) st'
      ∧ heap st' !! l = Some (collect ∅ pairs)
      ∧ (∀ k v, collect ∅ pairs !! k = Some v → k ∈ keys pairs)
      ∧ is_remembered st' G = false.
Proof.
  intros Hi HG Hpairs.
  split; [done|]. split; [intros; apply extract_remembered|].
  split.
  { intros st0 cb. split; [done|].
    unfold isReady. by destruct (defaultOptionGetter st0). }
  split; [|split; [intros; by eapply apply_remembers|]].
  - intros st0 optionId optionGroup j values g st1.
    destruct (apply_remembered optionId optionGroup j values st0)
      as [Hsame | (g' & vals & r & -> & -> & Hkeys & Hr & Hnone & Hr')];
      fold st1 in Hsame || fold st1 in Hr'.
    + split; [by rewrite Hsame|].
      unfold is_remembered. rewrite Hsame. congruence.
    + unfold is_remembered. rewrite Hr, Hr'. simpl.
      destruct (decide (g' = g)) as [->|Hne].
      * split.
        -- intros H%hasOwnProperty_true. rewrite Hnone in H. by destruct H.
        -- intros _ _. split; [done|]. exists vals.
           by rewrite lookup_insert_eq.
      * split; [by rewrite lookup_insert_ne|].
        intros H1 H2. apply hasOwnProperty_false in H1.
        apply hasOwnProperty_true in H2.
        rewrite lookup_insert_ne, H1 in H2 by done. by destruct H2.
  - unfold bind, resetRememberedOptions.
    set (st1 := set_rememberedOptions (Some ∅) st).
    eexists _, _. split.
    + eapply (extract_group_new i el G ∅ pairs st1); done.
    + simpl. split; [apply lookup_insert_eq|]. split; [|done].
      intros k v [H|H]%collect_lookup_Some; done.
Qed.

(** ** What an apply leaves alone *)

Lemma lookup_alter_cases (f : element → element) i (doc : list element) k e :
  doc !! k = Some e →
  alter f i doc !! k = Some (if decide (i = k) then f e else e).
Proof.
  intros Hk. rewrite list_lookup_alter.
  destruct (decide (i = k)) as [->|]; [|done]. by rewrite Hk.
Qed.

Lemma resolve_frame optionId optionGroup values st :
  let st' := final_state (resolveOptionValue optionId optionGroup values st) in
  heap st' = heap st
  ∧ defaultOptionGetter st' = defaultOptionGetter st
  ∧ document st' = document st.
Proof.
  unfold resolveOptionValue. destruct values as [vals|]; [|done].
  destruct (negb (hasOwnProperty vals optionId)
            && negb (hasOwnProperty vals (group_key optionGroup))).
  - unfold bind, getDefault.
    destruct (defaultOptionGetter st) as [| |f] eqn:Hg; try done.
    destruct optionGroup as [g|].
    + destruct (get_property (heap st) (f g) optionId) as [d|]; [|done].
      by destruct d.
    + by destruct (f optionId).
  - destruct optionGroup as [g|]; [|done]. unfold bind, read.
    destruct (get_property (heap st) (get vals g) optionId); [|done].
    simpl. unfold rememberOptions.
    destruct (rememberedOptions st) as [r|]; [|done].
    by destruct (hasOwnProperty r g).
Qed.

Lemma write_frame i v st :
  let st' := final_state (writeOptionValue i v st) in
  heap st' = heap st
  ∧ defaultOptionGetter st' = defaultOptionGetter st
  ∧ length (document st') = length (document st)
  ∧ ∀ k e, document st !! k = Some e →
           ∃ e', document st' !! k = Some e' ∧ same_markup e e'.
Proof.
  unfold writeOptionValue. destruct (document st !! i) as [el|] eqn:Hi.
  2:{ do 3 (split; [done|]). intros k e Hk. exists e.
      auto using same_markup_refl. }
  simpl. destruct (decide (type_of el = Some "checkbox")) as [Hc|Hc].
  { unfold update_element. simpl. do 2 (split; [done|]).
    split; [apply length_alter|].
    intros k e Hk. rewrite (lookup_alter_cases _ _ _ _ _ Hk).
    eexists. split; [done|].
    case_decide; auto using same_markup_refl, same_markup_checkCheckbox. }
  destruct (decide (type_of el = Some "radiogroup")) as [Hr|Hr].
  { rewrite forEach_update_document. simpl. do 2 (split; [done|]).
    split; [apply length_checkRadioElements|].
    intros k e Hk.
    destruct (lookup_checkRadioElements v
                (getElementsByTagName (document st) el "input") _ _ _ Hk)
      as [b Hb].
    eexists. split; [exact Hb|]. apply same_markup_after_loop. }
  unfold update_element. simpl. do 2 (split; [done|]).
  split; [apply length_alter|].
  intros k e Hk. rewrite (lookup_alter_cases _ _ _ _ _ Hk).
  eexists. split; [done|].
  case_decide; auto using same_markup_refl, same_markup_set_value.
Qed.

(** X1: whatever its arguments and whether it returns or throws,
    [applyOptionToElement] leaves the heap of option groups and the default
    provider alone, keeps every element of the page in its place, and
    changes no element beyond its [value], [checked] and [indeterminate]
    properties, a [checked] attribute that it may add, and the [value]
    attribute that a control may write when its [value] is assigned: tag,
    descendants, [selectedElement] marker, form owner and all other
    attributes, hence the type the element is dispatched on, its option id
    and its group, are the same, and a [checked] attribute is never
    removed. *)
Theorem apply_preserves_markup optionId optionGroup i values st :
  let st' :=
    final_state (applyOptionToElement optionId optionGroup i values st) in
  heap st' = heap st
  ∧ defaultOptionGetter st' = defaultOptionGetter st
  ∧ length (document st') = length (document st)
  ∧ ∀ k e,
      document st !! k = Some e →
      ∃ e', document st' !! k = Some e'
            ∧ same_markup e e'
            ∧ type_of e' = type_of e
            ∧ getOptionIdFromElement e' = getOptionIdFromElement e
            ∧ getAttribute "data-optiongroup" e'
              = getAttribute "data-optiongroup" e.
Proof.
  pose proof (resolve_frame optionId optionGroup values st) as Hres.
  unfold applyOptionToElement, bind. simpl in *.
  destruct (resolveOptionValue optionId optionGroup values st)
    as [[v|] st1|e st1]; simpl in *;
    destruct Hres as (Hh & Hg & Hd).
  - destruct (write_frame i v st1) as (Hh' & Hg' & Hl' & He'). simpl in *.
    rewrite Hh', Hg', Hl', Hh, Hg, Hd. do 3 (split; [done|]).
    intros k e Hk. rewrite <- Hd in Hk.
    destruct (He' k e Hk) as (e' & Hk' & Hsame). exists e'.
    split; [done|]. split; [done|]. by apply same_markup_dispatch.
  - rewrite Hh, Hg, Hd. do 3 (split; [done|]). intros k e0 Hk. exists e0.
    split; [done|]. split; [apply same_markup_refl|done].
  - rewrite Hh, Hg, Hd. do 3 (split; [done|]). intros k e0 Hk. exists e0.
    split; [done|]. split; [apply same_markup_refl|done].
Qed.







(** ** Applying again *)

Lemma checkCheckbox_idempotent v e :
  checkCheckbox v (checkCheckbox v e) = checkCheckbox v e.
Proof. by destruct v. Qed.

Lemma set_value_idempotent v e : set_value v (set_value v e) = set_value v e.
Proof.
  unfold set_value. simpl. f_equal.
  destruct (valueAttributeAfter e v) as [s|]; [|done].
  by rewrite insert_insert_eq.
Qed.

Lemma carries_value_with_checked_attribute v e :
  carries_value v (with_checked_attribute v e) = carries_value v e.
Proof.
  unfold with_checked_attribute. destruct (carries_value v e) eqn:Hc; [|done].
  by rewrite carries_value_setAttribute_checked.
Qed.

(** Where a set of the attribute does not count when the attribute is
    there with the empty string already, a second run of the loop changes
    nothing. *)
Lemma checkRadioElements_nothing_to_set v (inputs : list nat)
    (doc : list element) :
  checked_attribute_policy ≠ WhenSet →
  (∀ r radio, r ∈ inputs → doc !! r = Some radio →
              carries_value v radio = true →
              getAttribute "checked" radio = Some "") →
  checkRadioElements v inputs doc = doc.
Proof.
  intros Hpol. unfold checkRadioElements.
  induction inputs as [|r inputs IH]; intros Hset; [done|].
  cbn [foldl].
  assert (checkRadioElement v r doc = doc) as ->.
  { unfold checkRadioElement.
    destruct (doc !! r) as [radio|] eqn:Hr; [|done].
    destruct (carries_value v radio) eqn:Hc; [|done].
    assert (getAttribute "checked" radio = Some "") as Ha
      by (eapply Hset; [apply elem_of_cons; by left|done..]).
    unfold setAttribute_checked. rewrite Hr.
    assert (sets_checkedness radio = false) as ->.
    { unfold sets_checkedness. rewrite Ha.
      destruct checked_attribute_policy; try done; apply andb_false_r. }
    assert (setAttribute "checked" "" radio = radio) as ->.
    { destruct radio. unfold setAttribute, getAttribute in *. simpl in *.
      f_equal. by apply insert_id. }
    by apply list_insert_id. }
  apply IH. intros r' radio Hin. apply Hset, elem_of_cons. by right.
Qed.

(** The two things that the loop changes are left out of
    [without_checked], and the loop goes by the rest. *)
Lemma without_checked_with_effect x e :
  without_checked (with_effect x e) = without_checked e.
Proof.
  destruct x as [[] [b|]]; unfold with_effect, without_checked; simpl;
    try done; f_equal; apply delete_insert_eq.
Qed.

Lemma without_checked_after_loop v b k (inputs : list nat) e :
  without_checked
    (set_checkedness b
       (if decide (k ∈ inputs) then with_checked_attribute v e else e))
  = without_checked e.
Proof.
  destruct (decide (k ∈ inputs)); [|done].
  unfold with_checked_attribute. destruct (carries_value v e); [|done].
  unfold without_checked. simpl. f_equal. apply delete_insert_eq.
Qed.

Lemma carries_value_without_checked v e :
  carries_value v (without_checked e) = carries_value v e.
Proof.
  unfold carries_value, getAttribute, without_checked. simpl.
  by rewrite !lookup_delete_ne by done.
Qed.

Lemma in_radio_button_group_without_checked a e :
  in_radio_button_group (without_checked a) (without_checked e)
  = in_radio_button_group a e.
Proof.
  unfold in_radio_button_group, is_radio_button, getAttribute, without_checked.
  simpl. by rewrite !lookup_delete_ne by done.
Qed.

Lemma effect_of_round_without_checked v (doc : list element) r k e :
  effect_of_round v (without_checked <$> doc) r k (without_checked e)
  = effect_of_round v doc r k e.
Proof.
  unfold effect_of_round. rewrite list_lookup_fmap.
  destruct (doc !! r) as [radio|]; [|done]. simpl.
  rewrite carries_value_without_checked.
  by rewrite in_radio_button_group_without_checked.
Qed.

Lemma with_effect_then x y e :
  with_effect y (with_effect x e) = with_effect (then_effect x y) e.
Proof.
  destruct x as [[] [b|]], y as [[] [c|]]; unfold with_effect, then_effect;
    simpl; try done; unfold set_checkedness, setAttribute; simpl;
    by rewrite ?insert_insert_eq.
Qed.

Lemma with_effect_twice x e :
  with_effect x (with_effect x e) = with_effect x e.
Proof.
  rewrite with_effect_then. by destruct x as [[] [b|]].
Qed.

Lemma without_checked_checkRadioElement v r (doc : list element) :
  without_checked <$> checkRadioElement v r doc = without_checked <$> doc.
Proof.
  apply list_eq. intros k. rewrite !list_lookup_fmap.
  destruct (doc !! k) as [e|] eqn:Hk.
  - destruct (lookup_checkRadioElement v r doc k e Hk) as [b ->]. simpl.
    f_equal.
    pose proof (without_checked_after_loop v b k [r] e) as H.
    destruct (decide (k = r)) as [->|Hne].
    + by rewrite decide_True in H by (by apply list_elem_of_singleton).
    + by rewrite decide_False in H by (by intros ?%list_elem_of_singleton).
  - assert (checkRadioElement v r doc !! k = None) as ->; [|done].
    apply lookup_ge_None. rewrite length_checkRadioElement.
    by apply lookup_ge_None.
Qed.

Lemma without_checked_checkRadioElements v (inputs : list nat)
    (doc : list element) :
  without_checked <$> checkRadioElements v inputs doc = without_checked <$> doc.
Proof.
  unfold checkRadioElements. revert doc.
  induction inputs as [|r inputs IH]; intros doc; [done|].
  cbn [foldl]. by rewrite IH, without_checked_checkRadioElement.
Qed.

(** One round of the loop where every set of the attribute counts. *)
Lemma checkRadioElement_effect v r (doc : list element) k e :
  checked_attribute_policy = WhenSet →
  doc !! k = Some e →
  checkRadioElement v r doc !! k
  = Some (with_effect (effect_of_round v doc r k e) e).
Proof.
  intros Hpol Hk. unfold checkRadioElement, effect_of_round.
  destruct (doc !! r) as [radio|] eqn:Hr; [|done].
  destruct (carries_value v radio); [|done].
  unfold setAttribute_checked. rewrite Hr.
  assert (sets_checkedness radio = negb (dirtyCheckedness radio)) as ->.
  { unfold sets_checkedness. rewrite Hpol.
    destruct (getAttribute "checked" radio); apply andb_true_r. }
  destruct (dirtyCheckedness radio); simpl.
  - destruct (decide (k = r)) as [->|Hne].
    + rewrite Hr in Hk. injection Hk as ->.
      by rewrite list_lookup_insert_eq by (by eapply lookup_lt_Some).
    + by rewrite list_lookup_insert_ne.
  - rewrite list_lookup_imap, Hk. simpl.
    destruct (decide (k = r)); [done|].
    by destruct (in_radio_button_group radio e).
Qed.

(** The loop where every set of the attribute counts: what it does to an
    element is fixed by what the loop leaves alone. *)
Lemma checkRadioElements_effect v (inputs : list nat)
    (doc0 doc : list element) k e0 e x :
  checked_attribute_policy = WhenSet →
  without_checked <$> doc = without_checked <$> doc0 →
  without_checked e = without_checked e0 →
  doc !! k = Some (with_effect x e) →
  checkRadioElements v inputs doc !! k
  = Some (with_effect
            (foldl (λ y r, then_effect y (effect_of_round v doc0 r k e0))
                   x inputs)
            e).
Proof.
  intros Hpol. unfold checkRadioElements. revert doc x.
  induction inputs as [|r inputs IH]; intros doc x Hdoc He Hk; [done|].
  cbn [foldl]. apply IH; [by rewrite without_checked_checkRadioElement|done|].
  rewrite (checkRadioElement_effect v r doc k _ Hpol Hk), with_effect_then.
  do 3 f_equal.
  rewrite <- (effect_of_round_without_checked v doc),
    <- (effect_of_round_without_checked v doc0).
  by rewrite Hdoc, without_checked_with_effect, He.
Qed.

Lemma checkRadioElements_idempotent v (inputs : list nat)
    (doc : list element) :
  checkRadioElements v inputs (checkRadioElements v inputs doc)
  = checkRadioElements v inputs doc.
Proof.
  assert (checked_attribute_policy = WhenSet
          ∨ checked_attribute_policy ≠ WhenSet) as [Hpol|Hpol]
    by (destruct checked_attribute_policy; [by right|by right|by left]).
  - apply list_eq. intros k.
    destruct (doc !! k) as [e|] eqn:Hk.
    + set (x := foldl (λ y r, then_effect y (effect_of_round v doc r k e))
                      (false, None) inputs).
      assert (checkRadioElements v inputs doc !! k = Some (with_effect x e))
        as Hfirst
        by (by apply (checkRadioElements_effect v inputs doc doc k e e
                        (false, None))).
      rewrite Hfirst.
      assert (with_effect x e = with_effect (false, None) (with_effect x e))
        as Hx by done.
      rewrite Hx in Hfirst.
      rewrite (checkRadioElements_effect v inputs doc _ k e _ _ Hpol
                 (without_checked_checkRadioElements v inputs doc)
                 (without_checked_with_effect x e) Hfirst).
      fold x. f_equal. apply with_effect_twice.
    + pose proof (lookup_checkRadioElements_None v inputs doc k Hk) as Hk1.
      by rewrite (lookup_checkRadioElements_None v inputs _ k Hk1).
  - apply checkRadioElements_nothing_to_set; [done|].
    intros r radio Hin Hr Hc.
    destruct (doc !! r) as [e|] eqn:He.
    + destruct (lookup_checkRadioElements v inputs doc r e He) as [b Hb].
      rewrite Hb, decide_True in Hr by done. injection Hr as <-.
      change (carries_value v (set_checkedness b (with_checked_attribute v e)))
        with (carries_value v (with_checked_attribute v e)) in Hc.
      rewrite carries_value_with_checked_attribute in Hc.
      unfold with_checked_attribute. rewrite Hc.
      unfold getAttribute, setAttribute. simpl. apply lookup_insert_eq.
    + by rewrite lookup_checkRadioElements_None in Hr.
Qed.

Lemma write_twice i v st st1 :
  writeOptionValue i v st = Normal tt st1 →
  writeOptionValue i v st1 = Normal tt st1.
Proof.
  intros Hw. destruct (document st !! i) as [el|] eqn:Hi.
  2:{ unfold writeOptionValue in Hw. by rewrite Hi in Hw. }
  destruct (decide (type_of el = Some "checkbox")) as [Hc|Hc].
  { rewrite (write_checkbox _ _ _ _ Hi Hc) in Hw. injection Hw as <-.
    rewrite (write_checkbox i (checkCheckbox v el));
      [|by eapply lookup_insert_element|by destruct v].
    simpl. by rewrite checkCheckbox_idempotent, list_insert_insert_eq. }
  destruct (decide (type_of el = Some "radiogroup")) as [Hr|Hr].
  { rewrite (write_radiogroup _ _ _ _ Hi Hr) in Hw. injection Hw as <-.
    destruct (radiogroup_after_loop v _ _ _ Hi Hr)
      as (el' & Hi' & Ht' & _ & _ & Hinputs).
    rewrite (write_radiogroup i el'); [|done..]. simpl.
    by rewrite Hinputs, checkRadioElements_idempotent. }
  rewrite (write_plain _ _ _ _ Hi Hc Hr) in Hw. injection Hw as <-.
  rewrite (write_plain i (set_value v el));
    [|by eapply lookup_insert_element|by rewrite type_of_set_value..].
  simpl. by rewrite set_value_idempotent, list_insert_insert_eq.
Qed.

Lemma resolve_twice optionId optionGroup values ov st st1 :
  resolveOptionValue optionId optionGroup values st = Normal ov st1 →
  ∀ st2,
    heap st2 = heap st →
    defaultOptionGetter st2 = defaultOptionGetter st →
    rememberedOptions st2 = rememberedOptions st1 →
    resolveOptionValue optionId optionGroup values st2 = Normal ov st2.
Proof.
  intros Hres st2 Hh Hg Hr. unfold resolveOptionValue in *.
  destruct values as [vals|]; [|done].
  destruct (negb (hasOwnProperty vals optionId)
            && negb (hasOwnProperty vals (group_key optionGroup))).
  - unfold bind, getDefault, ret in *. rewrite Hg, Hh.
    destruct (defaultOptionGetter st) as [| |f]; simpl in *; try done.
    + by injection Hres as <- _.
    + destruct optionGroup as [g|].
      * destruct (get_property (heap st) (f g) optionId) as [d|]; [|done].
        simpl in *. by destruct d; injection Hres as <- _.
      * by destruct (f optionId); injection Hres as <- _.
  - destruct optionGroup as [g|];
      [|unfold ret in *; by injection Hres as <- _].
    unfold bind, read, ret in *. rewrite Hh.
    destruct (get_property (heap st) (get vals g) optionId) as [d|]; [|done].
    simpl in *. unfold rememberOptions in *. rewrite Hr.
    destruct (rememberedOptions st) as [r|] eqn:Hrem; [|done].
    destruct (hasOwnProperty r g) eqn:Hhas; simpl in Hres;
      injection Hres as <- <-; simpl.
    + by rewrite Hrem, Hhas.
    + rewrite (hasOwnProperty_lookup _ g (get vals g)); [done|].
      apply lookup_insert_eq.
Qed.

(** X3: applying is idempotent.  When [applyOptionToElement] returns,
    the same call on the state it left returns and changes nothing more:
    neither the page nor the remembered options. *)
Theorem apply_twice optionId optionGroup i values st st1 :
  applyOptionToElement optionId optionGroup i values st = Normal tt st1 →
  applyOptionToElement optionId optionGroup i values st1 = Normal tt st1.
Proof.
  intros Happly. unfold applyOptionToElement, bind in *.
  destruct (resolveOptionValue optionId optionGroup values st)
    as [ov st0|e st0] eqn:Hres; [|done].
  pose proof (resolve_frame optionId optionGroup values st) as Hframe.
  rewrite Hres in Hframe. simpl in Hframe. destruct Hframe as (Hh & Hg & _).
  destruct ov as [v|].
  - pose proof (write_frame i v st0) as Hw.
    pose proof (write_remembered i v st0) as Hr.
    rewrite Happly in Hw, Hr. simpl in Hw, Hr. destruct Hw as (Hh' & Hg' & _).
    rewrite (resolve_twice _ _ _ _ _ _ Hres st1); [|congruence..].
    by eapply write_twice.
  - unfold ret in Happly. injection Happly as <-.
    by rewrite (resolve_twice _ _ _ _ _ _ Hres st0).
Qed.

(** ** Radio groups: what an apply can and cannot select *)

Lemma checkRadioElements_nothing_carried v (inputs : list nat)
    (doc : list element) :
  (∀ k child, k ∈ inputs → doc !! k = Some child →
              carries_value v child = false) →
  checkRadioElements v inputs doc = doc.
Proof.
  unfold checkRadioElements.
  induction inputs as [|r inputs IH]; intros Hnone; [done|]. cbn [foldl].
  assert (checkRadioElement v r doc = doc) as ->.
  { unfold checkRadioElement. destruct (doc !! r) as [radio|] eqn:Hr; [|done].
    rewrite (Hnone r radio); [done| |done]. apply elem_of_cons. by left. }
  apply IH. intros k child Hk. apply Hnone, elem_of_cons. by right.
Qed.

Lemma carries_value_needs_string v child :
  match v with VString _ | VNull => False | _ => True end →
  carries_value v child = false.
Proof.
  intros Hv. unfold carries_value, attribute_strict_equal.
  destruct (getAttribute "value" child); destruct v;
    try done; apply andb_false_r.
Qed.

(** X4: applying a stored value to a radio group is silent when nothing
    matches.  If no radio child below the group has the value as its
    [value] attribute, the call returns and the whole state is what it
    was; this is always so for a value that is neither a string nor
    [null], since the comparison with the attribute is strict: a stored
    number selects nothing, whatever the attributes say. *)
Theorem radiogroup_apply_without_match
    optionId (values : object) v i el st :
  document st !! i = Some el →
  type_of el = Some "radiogroup" →
  values !! optionId = Some v →
  ((∀ k child,
      k ∈ getElementsByTagName (document st) el "input" →
      document st !! k = Some child →
      carries_value v child = false) →
   applyOptionToElement optionId None i (Some values) st = Normal tt st)
  ∧ (match v with VString _ | VNull => False | _ => True end →
     applyOptionToElement optionId None i (Some values) st = Normal tt st).
Proof.
  intros Hi Ht Hv.
  assert ((∀ k child,
             k ∈ getElementsByTagName (document st) el "input" →
             document st !! k = Some child →
             carries_value v child = false) →
          applyOptionToElement optionId None i (Some values) st
          = Normal tt st) as Hsilent.
  { intros Hnone.
    rewrite (apply_stored _ _ _ _ _ Hv), (write_radiogroup _ _ _ _ Hi Ht).
    by rewrite (checkRadioElements_nothing_carried _ _ _ Hnone),
      set_document_id. }
  split; [done|]. intros Hnot. apply Hsilent.
  intros k child _ _. by apply carries_value_needs_string.
Qed.

(** X5: an apply never takes a [checked] attribute away.  In a radio
    group without marker, once a radio child has the attribute and no
    radio child before it has the applied value as its [value] attribute,
    applying that value returns and the extraction from the group yields
    what it yielded before, the pair of the child that had the attribute:
    a later child that carries the value gets its [checked] attribute as
    well, and loses against the earlier one. *)
Theorem radiogroup_first_checked_child_wins
    optionId (values : object) v i el j st :
  document st !! i = Some el →
  type_of el = Some "radiogroup" →
  selectedElement el = None →
  values !! optionId = Some v →
  List.find
    (λ k, is_checked_radio (document st) k
          || from_option (carries_value v) false (document st !! k))
    (getElementsByTagName (document st) el "input") = Some j →
  is_checked_radio (document st) j = true →
  ∃ st' child,
    applyOptionToElement optionId None i (Some values) st = Normal tt st'
    ∧ document st !! j = Some child
    ∧ getIdAndOptionFromElement (document st) i
      = Ok (match getOptionIdFromElement child with
            | Some optionId => Some optionId
            | None => getOptionIdFromElement el
            end, value child)
    ∧ getIdAndOptionFromElement (document st') i
      = getIdAndOptionFromElement (document st) i.
Proof.
  intros Hi Ht Hs Hv Hfind Hj.
  assert (∃ child, document st !! j = Some child) as [child Hchild].
  { unfold is_checked_radio in Hj. destruct (document st !! j); [eauto|done]. }
  assert (getIdAndOptionFromElement (document st) i
          = Ok (match getOptionIdFromElement child with
                | Some optionId => Some optionId
                | None => getOptionIdFromElement el
                end, value child)) as Hbefore.
  { rewrite (extract_radiogroup _ _ _ Hi Ht). unfold getSelectedFromRadioGroup.
    assert (List.find (is_checked_radio (document st))
              (getElementsByTagName (document st) el "input") = Some j)
      as Hfirst.
    { eapply find_stronger; [|exact Hfind|exact Hj].
      intros k Hk. simpl. by rewrite Hk. }
    by rewrite Hs, Hfirst, Hchild. }
  eexists _, child.
  split; [rewrite (apply_stored _ _ _ _ _ Hv); by apply write_radiogroup|].
  split; [done|]. split; [done|]. simpl.
  rewrite (extract_radiogroup_after_write v _ _ _ Hi Ht).
  by rewrite Hs, Hfind, Hchild, Hbefore.
Qed.

(** X6: the [selectedElement] marker decides.  For a radio group with a
    marker, no [applyOptionToElement] on the group, whatever its arguments
    and its outcome, changes what extraction from the group yields. *)
Theorem radiogroup_marker_survives_apply
    optionId optionGroup values i el j st :
  document st !! i = Some el →
  type_of el = Some "radiogroup" →
  selectedElement el = Some j →
  getIdAndOptionFromElement
    (document
       (final_state (applyOptionToElement optionId optionGroup i values st)))
    i
  = getIdAndOptionFromElement (document st) i.
Proof.
  intros Hi Ht Hs.
  pose proof (resolve_frame optionId optionGroup values st) as Hres.
  unfold applyOptionToElement, bind. simpl in *.
  destruct (resolveOptionValue optionId optionGroup values st)
    as [[v|] st1|e st1]; simpl in *;
    destruct Hres as (_ & _ & Hd); [|by rewrite Hd..].
  rewrite <- Hd in Hi |- *.
  rewrite (write_radiogroup _ _ _ _ Hi Ht). simpl.
  rewrite (extract_radiogroup_after_write v _ _ _ Hi Ht), Hs.
  rewrite (extract_radiogroup _ _ _ Hi Ht). unfold getSelectedFromRadioGroup.
  by rewrite Hs.
Qed.

(** ** What an extraction leaves alone *)

Lemma forEach_app {A} (body : A → M unit) (l1 l2 : list A) st :
  forEach body (l1 ++ l2) st
  = bind (forEach body l1) (λ _, forEach body l2) st.
Proof.
  revert st. induction l1 as [|x l1 IH]; intros st; [done|].
  cbn [app forEach]. unfold bind in *. destruct (body x st); [|done].
  apply IH.
Qed.

Lemma collectOption_frame v m l st :
  v ≠ VObject l →
  let st' := final_state (collectOption v m st) in
  (document st', defaultOptionGetter st', heap st' !! l)
  = (document st, defaultOptionGetter st, heap st !! l).
Proof.
  intros Hv. unfold collectOption, bind, read.
  destruct (getIdAndOptionFromElement (document st) m) as [p|e]; [|done].
  simpl. unfold set_property. destruct v as [| | | | |l0]; try done.
  destruct (heap st !! l0) eqn:Hl0; [|done]. simpl.
  rewrite lookup_insert_ne; [done|]. congruence.
Qed.

Lemma collectOption_document v m st :
  (document (final_state (collectOption v m st)),
   defaultOptionGetter (final_state (collectOption v m st)))
  = (document st, defaultOptionGetter st).
Proof.
  unfold collectOption, bind, read.
  destruct (getIdAndOptionFromElement (document st) m) as [p|e]; [|done].
  simpl. unfold set_property. destruct v as [| | | | |l0]; try done.
  by destruct (heap st !! l0).
Qed.

(** X7: an extraction only reads the page.  Whatever its arguments and
    its outcome, [getIdAndOptionsFromElement] leaves the page, the default
    provider and the entries of [rememberedOptions] as they are; of the
    objects that exist it can change one only, the object that is
    remembered for the group of the control; and without group mode, or for
    a control that declares no group, it changes nothing at all. *)
Theorem extraction_only_reads_the_page i useDatagroup st :
  let st' := final_state (getIdAndOptionsFromElement i useDatagroup st) in
  document st' = document st
  ∧ defaultOptionGetter st' = defaultOptionGetter st
  ∧ rememberedOptions st' = rememberedOptions st
  ∧ (∀ l, is_Some (heap st !! l) →
          heap st' !! l = heap st !! l
          ∨ ∃ el G r,
              useDatagroup = true
              ∧ document st !! i = Some el
              ∧ getAttribute "data-optiongroup" el = Some G
              ∧ rememberedOptions st = Some r
              ∧ r !! G = Some (VObject l))
  ∧ (useDatagroup = false
     ∨ document st !! i ≫= getAttribute "data-optiongroup" = None →
     st' = st).
Proof.
  intros st'. split; [|split; [|split; [apply extract_remembered|]]].
  1,2: subst st'; unfold getIdAndOptionsFromElement;
    destruct (document st !! i) as [el|]; [|done];
    destruct (if useDatagroup then getAttribute "data-optiongroup" el
              else None) as [G|];
    [|unfold read; by destruct (getIdAndOptionFromElement _ _)];
    unfold bind at 1, rememberedOrNew;
    destruct (rememberedOptions st) as [r|]; [|done];
    (assert (∀ v st1,
               (document st1, defaultOptionGetter st1)
               = (document st, defaultOptionGetter st) →
               (document
                  (final_state
                     (bind (forEach (collectOption v)
                              (querySelectorAll_optiongroup (document st) G))
                           (λ _, ret (Some G, v)) st1)),
                defaultOptionGetter
                  (final_state
                     (bind (forEach (collectOption v)
                              (querySelectorAll_optiongroup (document st) G))
                           (λ _, ret (Some G, v)) st1)))
               = (document st, defaultOptionGetter st)) as Hrest;
     [intros v st1 H1; unfold bind;
      pose proof (forEach_preserves (collectOption v)
                    (λ s, (document s, defaultOptionGetter s))
                    (collectOption_document v)
                    (querySelectorAll_optiongroup (document st) G) st1) as H;
      destruct (forEach _ _ st1); simpl in *; congruence|]);
    destruct (hasOwnProperty r G);
    [specialize (Hrest (get r G) st eq_refl)
    |unfold new_object;
     specialize (Hrest (VObject (fresh (dom (heap st))))
                   (set_heap (<[fresh (dom (heap st)) := ∅]> (heap st)) st)
                   eq_refl)];
    by injection Hrest.
  split.
  - intros l Hl. subst st'. unfold getIdAndOptionsFromElement.
    destruct (document st !! i) as [el|] eqn:Hi; [|by left].
    destruct useDatagroup; [|left; unfold read;
                             by destruct (getIdAndOptionFromElement _ _)].
    destruct (getAttribute "data-optiongroup" el) as [G|] eqn:HG;
      [|left; unfold read; by destruct (getIdAndOptionFromElement _ _)].
    unfold bind at 1, rememberedOrNew.
    destruct (rememberedOptions st) as [r|] eqn:Hr; [|by left].
    assert (∀ v st1,
              v ≠ VObject l →
              heap
                (final_state
                   (bind (forEach (collectOption v)
                            (querySelectorAll_optiongroup (document st) G))
                         (λ _, ret (Some G, v)) st1)) !! l
              = heap st1 !! l) as Hrest.
    { intros v st1 Hv. unfold bind.
      pose proof (forEach_preserves (collectOption v)
                    (λ s, (document s, defaultOptionGetter s, heap s !! l))
                    (λ m s, collectOption_frame v m l s Hv)
                    (querySelectorAll_optiongroup (document st) G) st1) as H.
      destruct (forEach _ _ st1); simpl in *; congruence. }
    destruct (hasOwnProperty r G) eqn:Hhas.
    + apply hasOwnProperty_true in Hhas as [v Hentry].
      assert (v = VObject l ∨ v ≠ VObject l) as [->|Hv].
      { destruct v as [| | | | |l0]; try (by right).
        destruct (decide (l0 = l)) as [->|]; [by left|right; congruence]. }
      * right. by exists el, G, r.
      * left. unfold get. rewrite Hentry. simpl. by apply Hrest.
    + left. unfold new_object. rewrite Hrest.
      * simpl. apply lookup_insert_ne. intros Heq.
        apply (is_fresh (dom (heap st))). rewrite Heq.
        by apply elem_of_dom.
      * intros [= Heq]. apply (is_fresh (dom (heap st))). rewrite Heq.
        by apply elem_of_dom.
  - intros Hsingle. subst st'. unfold getIdAndOptionsFromElement.
    destruct (document st !! i) as [el|] eqn:Hi; [|done].
    assert ((if useDatagroup then getAttribute "data-optiongroup" el
             else None) = None) as ->.
    { destruct Hsingle as [->|H]; [done|]. simpl in H. rewrite H.
      by destruct useDatagroup. }
    unfold read. by destruct (getIdAndOptionFromElement _ _).
Qed.

(** X8: an extraction of a group that fails midway keeps what it has
    written.  When the group is remembered as an object and a control of
    the group cannot be extracted, the call throws the exception of that
    control, and the pairs of the controls before it in the document are
    in the remembered object already. *)
Theorem group_extraction_failure_keeps_writes
    i el G r l o before m after pairs e st :
  document st !! i = Some el →
  getAttribute "data-optiongroup" el = Some G →
  rememberedOptions st = Some r →
  r !! G = Some (VObject l) →
  heap st !! l = Some o →
  querySelectorAll_optiongroup (document st) G = before ++ m :: after →
  Forall2 (λ m p, getIdAndOptionFromElement (document st) m = Ok p)
          before pairs →
  getIdAndOptionFromElement (document st) m = Raise e →
  ∃ st',
    getIdAndOptionsFromElement i true st = Throw e st'
    ∧ rememberedOptions st' = Some r
    ∧ remembered_group st' G = collect o pairs.
Proof.
  intros Hi HG Hr Hentry Hl Hmembers Hpairs Hm.
  exists (set_heap (<[l := collect o pairs]> (heap st)) st).
  split; [|split; [done|]].
  - unfold getIdAndOptionsFromElement. rewrite Hi, HG.
    unfold bind at 1. unfold rememberedOrNew. rewrite Hr.
    rewrite (hasOwnProperty_lookup _ _ _ Hentry).
    unfold get. rewrite Hentry. simpl. rewrite Hmembers.
    unfold bind at 1. rewrite forEach_app. unfold bind at 1.
    rewrite (forEach_collectOption _ _ _ _ Hpairs st o); [|done..].
    cbn [forEach]. unfold bind at 1. unfold collectOption, bind, read.
    simpl. by rewrite Hm.
  - unfold remembered_group. simpl. rewrite Hr. simpl. rewrite Hentry.
    by rewrite lookup_insert_eq.
Qed.

(** ** Calls before the module is set up *)

(** X9: the group mode needs [resetRememberedOptions].  While
    [rememberedOptions] is not initialised, the extraction of a control
    that declares a group throws a [TypeError], and so does the apply of an
    option whose group is stored in the loaded values; the state is the
    one before the call, so the control is not written although its value
    was found. *)
Theorem grouped_calls_need_reset
    i el G optionId (values : object) l o j st :
  rememberedOptions st = None →
  document st !! i = Some el →
  getAttribute "data-optiongroup" el = Some G →
  values !! G = Some (VObject l) →
  heap st !! l = Some o →
  getIdAndOptionsFromElement i true st = Throw TypeError st
  ∧ applyOptionToElement optionId (Some G) j (Some values) st
    = Throw TypeError st.
Proof.
  intros Hr Hi HG Hv Hl. split.
  - unfold getIdAndOptionsFromElement. rewrite Hi, HG.
    unfold bind, rememberedOrNew. by rewrite Hr.
  - unfold applyOptionToElement, bind, resolveOptionValue. simpl.
    rewrite (hasOwnProperty_lookup _ _ _ Hv), andb_false_r.
    unfold bind, read, get. rewrite Hv. simpl. rewrite Hl. simpl.
    unfold rememberOptions. by rewrite Hr.
Qed.

(** X10: an option that is not stored needs the provider.  With no
    provider set, where [isReady] throws its error, applying an option
    that is found neither under its id nor under its group in the loaded
    values throws a [TypeError] from calling [undefined]; the state is the
    one before the call. *)
Theorem apply_without_provider optionId optionGroup i (values : object) st :
  hasOwnProperty values optionId = false →
  hasOwnProperty values (group_key optionGroup) = false →
  defaultOptionGetter st = GetterUndefined →
  applyOptionToElement optionId optionGroup i (Some values) st
  = Throw TypeError st
  ∧ isReady st = Throw (Error provider_not_set) st.
Proof.
  intros Ho Hg Hget. split.
  - unfold applyOptionToElement, bind, resolveOptionValue.
    rewrite Ho, Hg. simpl. unfold bind, getDefault. by rewrite Hget.
  - unfold isReady. by rewrite Hget.
Qed.

(** ** Stored groups *)

Lemma resolve_stored_group optionId G (values r : object) l o st :
  values !! G = Some (VObject l) →
  heap st !! l = Some o →
  rememberedOptions st = Some r →
  resolveOptionValue optionId (Some G) (Some values) st
  = Normal (Some (get o optionId))
      (if hasOwnProperty r G then st
       else set_rememberedOptions (Some (<[G := VObject l]> r)) st).
Proof.
  intros Hv Hl Hr. unfold resolveOptionValue. simpl.
  rewrite (hasOwnProperty_lookup _ _ _ Hv), andb_false_r.
  unfold bind, read, get. rewrite Hv. simpl. rewrite Hl. simpl.
  unfold rememberOptions. rewrite Hr. by destruct (hasOwnProperty r G).
Qed.

(** X11: the round trip of a group goes through the loaded object.  After
    a reset, applying an option of a group that the loaded values hold as
    an object remembers that very object, and the extraction of the group
    that follows returns it: the aggregate is the object of the loaded
    values, written in place, with the pairs of the controls of the group
    over what was loaded, and with every loaded member that no control
    writes still in it. *)
Theorem group_round_trip_through_loaded_object
    optionId G j i el (values r : object) l o pairs st st1 :
  rememberedOptions st = Some r →
  r !! G = None →
  values !! G = Some (VObject l) →
  heap st !! l = Some o →
  applyOptionToElement optionId (Some G) j (Some values) st = Normal tt st1 →
  document st1 !! i = Some el →
  getAttribute "data-optiongroup" el = Some G →
  Forall2 (λ m p, getIdAndOptionFromElement (document st1) m = Ok p)
          (querySelectorAll_optiongroup (document st1) G) pairs →
  ∃ st2,
    getIdAndOptionsFromElement i true st1 = Normal (Some G, VObject l) st2
    ∧ get values G = VObject l
    ∧ heap st2 !! l = Some (collect o pairs)
    ∧ (∀ k, k ∉ keys pairs → collect o pairs !! k = o !! k)
    ∧ (∀ ps1 p ps2,
         pairs = ps1 ++ p :: ps2 →
         id_key p.1 ∉ keys ps2 →
         collect o pairs !! id_key p.1 = Some p.2).
Proof.
  intros Hr Hnone Hv Hl Happly Hi HG Hpairs.
  assert (rememberedOptions st1 = Some (<[G := VObject l]> r)
          ∧ heap st1 = heap st) as [Hr1 Hh1].
  { unfold applyOptionToElement, bind in Happly.
    rewrite (resolve_stored_group _ _ _ _ _ _ _ Hv Hl Hr) in Happly.
    apply hasOwnProperty_false in Hnone. rewrite Hnone in Happly.
    pose proof (write_remembered j (get o optionId)
                  (set_rememberedOptions (Some (<[G := VObject l]> r)) st))
      as Hrem.
    pose proof (write_frame j (get o optionId)
                  (set_rememberedOptions (Some (<[G := VObject l]> r)) st))
      as (Hheap & _).
    rewrite Happly in Hrem, Hheap. by simpl in *. }
  eexists. split.
  - eapply extract_group_remembered; try done.
    + by rewrite lookup_insert_eq.
    + by rewrite Hh1.
  - split; [unfold get; by rewrite Hv|].
    split; [simpl; apply lookup_insert_eq|].
    split; [intros k; apply collect_lookup_other|].
    intros ps1 p ps2. apply collect_lookup_last.
Qed.

(** X12: a stored group hides the defaults of its members.  When the
    loaded values hold the group as an object that has no entry for the
    option, the apply does not ask the provider and does not skip: it
    writes [undefined].  A checkbox is unchecked, a radio group is left as
    it is, and any other control has [undefined] assigned to its [value],
    of which it makes what it makes of any assignment: a text input reads
    the string [undefined] afterwards. *)
Theorem stored_group_without_option_writes_undefined
    optionId G i el (values r : object) l o st :
  values !! G = Some (VObject l) →
  heap st !! l = Some o →
  o !! optionId = None →
  rememberedOptions st = Some r →
  document st !! i = Some el →
  ∃ st',
    applyOptionToElement optionId (Some G) i (Some values) st = Normal tt st'
    ∧ defaultOptionGetter st' = defaultOptionGetter st
    ∧ document st'
      = <[i := if decide (type_of el = Some "checkbox")
               then set_checked false el
               else if decide (type_of el = Some "radiogroup") then el
               else set_value VUndefined el]> (document st).
Proof.
  intros Hv Hl Ho Hr Hi. unfold applyOptionToElement, bind.
  rewrite (resolve_stored_group _ _ _ _ _ _ _ Hv Hl Hr).
  unfold get. rewrite Ho. simpl.
  set (st0 := if hasOwnProperty r G then st
              else set_rememberedOptions (Some (<[G := VObject l]> r)) st).
  assert (document st0 = document st
          ∧ defaultOptionGetter st0 = defaultOptionGetter st) as [Hd Hg]
    by (unfold st0; by destruct (hasOwnProperty r G)).
  rewrite <- Hd in Hi |- *. rewrite <- Hg.
  destruct (decide (type_of el = Some "checkbox")) as [Hc|Hc].
  { eexists. split; [by apply write_checkbox|]. done. }
  destruct (decide (type_of el = Some "radiogroup")) as [Hrg|Hrg].
  { eexists. split; [by apply write_radiogroup|]. split; [done|]. simpl.
    rewrite checkRadioElements_nothing_carried.
    - by rewrite list_insert_id.
    - intros k child _ _. by apply carries_value_needs_string. }
  eexists. split; [by apply write_plain|]. done.
Qed.

(** ** Controls that can always be extracted *)

Lemma extract_other_control doc i el :
  doc !! i = Some el →
  type_of el ≠ Some "radiogroup" →
  ∃ v, getIdAndOptionFromElement doc i = Ok (getOptionIdFromElement el, v).
Proof.
  intros Hi Hr. destruct (decide (type_of el = Some "checkbox")).
  - eexists. by apply extract_checkbox.
  - eexists. by apply extract_plain.
Qed.

(** X13: only a radio group can make an extraction fail.  For any other
    control the extraction returns the id of the control itself together
    with a value of the kind of the control: [null] or a boolean for a
    checkbox, a number for a [number] or [range] control, and the [value]
    as it is for the rest. *)
Theorem extraction_fails_only_for_radiogroups doc i el :
  doc !! i = Some el →
  type_of el ≠ Some "radiogroup" →
  ∃ v,
    getIdAndOptionFromElement doc i = Ok (getOptionIdFromElement el, v)
    ∧ if decide (type_of el = Some "checkbox") then
        v = (if indeterminate el then VNull else VBool (checked el))
      else if decide (type_of el = Some "number" ∨ type_of el = Some "range")
      then ∃ n, v = VNumber n
      else v = value el.
Proof.
  intros Hi Hr.
  destruct (decide (type_of el = Some "checkbox")) as [Hc|Hc].
  { eexists. split; [by apply extract_checkbox|done]. }
  eexists. split; [by apply extract_plain|].
  destruct (decide (type_of el = Some "number" ∨ type_of el = Some "range"));
    [|done].
  unfold Number. destruct (value el); eauto.
Qed.

Lemma Forall2_from_each {A B} (P : A → B → Prop) (l : list A) :
  (∀ x, x ∈ l → ∃ y, P x y) → ∃ k, Forall2 P l k.
Proof.
  induction l as [|x l IH]; intros H.
  - exists []. constructor.
  - destruct (H x) as [y Hy]; [apply elem_of_cons; by left|].
    destruct IH as [k Hk]; [intros z Hz; apply H, elem_of_cons; by right|].
    exists (y :: k). by constructor.
Qed.

Lemma collect_lookup_key seed pairs k :
  k ∈ keys pairs → is_Some (collect seed pairs !! k).
Proof.
  revert seed. induction pairs as [|p pairs IH]; intros seed Hk.
  - by apply elem_of_nil in Hk.
  - unfold collect. cbn [foldl]. fold (collect (write_pair seed p) pairs).
    destruct (decide (k ∈ keys pairs)) as [Hin|Hin]; [by apply IH|].
    rewrite collect_lookup_other by done.
    unfold keys in Hk. rewrite fmap_cons in Hk.
    apply elem_of_cons in Hk as [->|Hk]; [|done].
    unfold write_pair. rewrite lookup_insert_eq. eauto.
Qed.

(** X14: a group without radio groups can always be saved.  With
    [rememberedOptions] initialised and what it holds for the group an
    object, the extraction of a group none of whose controls is a radio
    group returns, and the aggregate has an entry under the id of every
    control of the group. *)
Theorem group_without_radiogroups_extracts i el G r st :
  document st !! i = Some el →
  getAttribute "data-optiongroup" el = Some G →
  rememberedOptions st = Some r →
  (∀ v, r !! G = Some v → ∃ l, v = VObject l ∧ is_Some (heap st !! l)) →
  (∀ m e, document st !! m = Some e →
          getAttribute "data-optiongroup" e = Some G →
          type_of e ≠ Some "radiogroup") →
  ∃ l st' aggregate,
    getIdAndOptionsFromElement i true st = Normal (Some G, VObject l) st'
    ∧ heap st' !! l = Some aggregate
    ∧ ∀ m e, document st !! m = Some e →
             getAttribute "data-optiongroup" e = Some G →
             is_Some (aggregate !! id_key (getOptionIdFromElement e)).
Proof.
  intros Hi HG Hr Hobj Hkinds.
  destruct (Forall2_from_each
              (λ m p, getIdAndOptionFromElement (document st) m = Ok p)
              (querySelectorAll_optiongroup (document st) G))
    as [pairs Hpairs].
  { intros m (e & Hm & Hg)%elem_of_querySelectorAll_optiongroup.
    destruct (extract_other_control _ _ _ Hm (Hkinds _ _ Hm Hg)) as (v & Hv).
    eauto. }
  destruct (extract_group _ _ _ _ _ _ Hi HG Hr Hobj Hpairs) as (l & Hcall & _).
  eexists l, _, _. split; [exact Hcall|]. split; [apply lookup_insert_eq|].
  intros m e Hm Hg. apply collect_lookup_key.
  assert (m ∈ querySelectorAll_optiongroup (document st) G) as Hin
    by (apply elem_of_querySelectorAll_optiongroup; eauto).
  apply list_elem_of_lookup in Hin as [n Hn].
  destruct (Forall2_lookup_l _ _ _ _ _ Hpairs Hn) as (p & Hp & Hextract).
  destruct (extract_other_control _ _ _ Hm (Hkinds _ _ Hm Hg)) as (v & Hv).
  rewrite Hv in Hextract. injection Hextract as <-.
  unfold keys. apply list_elem_of_fmap. exists (getOptionIdFromElement e, v).
  split; [done|]. apply list_elem_of_lookup. eauto.
Qed.

(** ** Saving and loading again *)

(** X15: a stored option without a group needs no setup.  Applying it to
    a control of the page always returns, whatever the state of the
    provider and of [rememberedOptions] (neither need be initialised), and
    leaves both and the heap as they are. *)
Theorem apply_stored_option_always_returns
    optionId (values : object) v i el st :
  values !! optionId = Some v →
  document st !! i = Some el →
  ∃ st',
    applyOptionToElement optionId None i (Some values) st = Normal tt st'
    ∧ defaultOptionGetter st' = defaultOptionGetter st
    ∧ rememberedOptions st' = rememberedOptions st
    ∧ heap st' = heap st.
Proof.
  intros Hv Hi. rewrite (apply_stored _ _ _ _ _ Hv).
  destruct (decide (type_of el = Some "checkbox")) as [Hc|Hc].
  { eexists. split; [by apply write_checkbox|done]. }
  destruct (decide (type_of el = Some "radiogroup")) as [Hr|Hr].
  { eexists. split; [by apply write_radiogroup|done]. }
  eexists. split; [by apply write_plain|done].
Qed.

(** X16: what was saved can be loaded.  For a control that is not a
    radio group, applying the value that the extraction has returned,
    stored under any option id, returns, and the extraction that follows
    returns the same id; it returns the same value as the first one for a
    control that takes back what is read from it, as a checkbox always
    does and as the controls of a page do with the value they hold. *)
Theorem extract_apply_extract optionId (values : object) i el st :
  document st !! i = Some el →
  type_of el ≠ Some "radiogroup" →
  ∃ optionId' v,
    getIdAndOptionFromElement (document st) i = Ok (optionId', v)
    ∧ (values !! optionId = Some v →
       ∃ st' v',
         applyOptionToElement optionId None i (Some values) st = Normal tt st'
         ∧ getIdAndOptionFromElement (document st') i = Ok (optionId', v')
         ∧ (keeps_own_value el → v' = v)).
Proof.
  intros Hi Hr. unfold keeps_own_value.
  destruct (decide (type_of el = Some "checkbox")) as [Hc|Hc].
  { set (v := if indeterminate el then VNull else VBool (checked el) : jsval).
    exists (getOptionIdFromElement el), v.
    split; [by apply extract_checkbox|].
    intros Hv. rewrite (apply_stored _ _ _ _ _ Hv).
    eexists _, v. split; [by apply write_checkbox|]. split; [|done]. simpl.
    rewrite (extract_checkbox _ i (checkCheckbox v el));
      [|by eapply lookup_insert_element
       |unfold v; by destruct (indeterminate el)].
    unfold v. destruct (indeterminate el) eqn:Hind; simpl; [done|].
    rewrite Hind. by destruct (checked el). }
  set (v := if decide (type_of el = Some "number" ∨ type_of el = Some "range")
            then Number (value el) else value el).
  exists (getOptionIdFromElement el), v.
  split; [by apply extract_plain|].
  intros Hv. rewrite (apply_stored _ _ _ _ _ Hv).
  eexists _, _. split; [by apply write_plain|]. simpl. split.
  - rewrite (extract_plain _ i (set_value v el));
      [|by eapply lookup_insert_element|by rewrite type_of_set_value..].
    by rewrite getOptionIdFromElement_set_value, type_of_set_value.
  - simpl. unfold v.
    by destruct (decide (type_of el = Some "number"
                         ∨ type_of el = Some "range")).
Qed.

End Properties.

Example numeric_control_extracts_a_number :
  getIdAndOptionFromElement options_page 4
  = Ok (Some "size", VNumber 200%Z).
Proof. vm_compute. reflexivity. Qed.

(** [hasOwnProperty(optionGroup)] looks a [null] group up under the key
    [null]: with such a key in the loaded values, an option that is not
    stored is applied as [undefined] and the provider is not asked. *)
Example stored_key_null_hides_the_default :
  match
    applyOptionToElement "qrColor" None 0 (Some stored_under_null) appearance
  with
  | Normal _ st' => (value <$> document st' !! 0) = Some (VString "undefined")
  | Throw _ _ => False
  end.
Proof. vm_compute. reflexivity. Qed.

Example group_round_trip :
  match
    bind (applyOptionToElement "size" (Some "qrCodeSize") 4
            (Some stored_size_group))
         (λ _, getIdAndOptionsFromElement 4 true) page
  with
  | Normal (optionId, VObject l) st' =>
      optionId = Some "qrCodeSize"
      ∧ heap st' !! l
        = Some {[ "size" := VNumber 100%Z; "sizeType" := VString "fixed";
                  "unit" := VString "px" ]}
  | _ => False
  end.
Proof. vm_compute. split; reflexivity. Qed.

(** *** What the controls of the page keep *)

Lemma is_decimal_string_of_int n :
  is_decimal (NilEmpty.string_of_int (Z.to_int n)) = true.
Proof.
  assert (∀ d, d ≠ Decimal.Nil →
               is_decimal (NilEmpty.string_of_uint d) = true
               ∧ is_decimal (String "-" (NilEmpty.string_of_uint d)) = true)
    as Hdigits.
  { intros d Hd. pose proof (NilEmpty.usu d) as Hparse.
    destruct d; try done; simpl in *;
      (split; apply bool_decide_eq_true; rewrite Hparse; eauto). }
  destruct n as [|p|p]; simpl.
  - by apply (Hdigits (Decimal.D0 Decimal.Nil)).
  - apply Hdigits, Unsigned.to_uint_nonnil.
  - apply Hdigits, Unsigned.to_uint_nonnil.
Qed.

Lemma to_number_to_string n : to_number (VString (to_string (VNumber n))) = n.
Proof.
  unfold to_number, to_string. rewrite NilEmpty.isi. simpl. apply of_to.
Qed.

(** A number input keeps every number. *)
Lemma number_input_keeps_numbers n :
  Number (number_value (VNumber n)) = VNumber n.
Proof.
  unfold number_value, input_string, to_string.
  rewrite is_decimal_string_of_int. unfold Number. f_equal.
  apply to_number_to_string.
Qed.

(** A range input keeps the numbers of its range. *)
Lemma range_input_keeps_its_range lo hi n :
  (lo ≤ n ≤ hi)%Z →
  Number (range_value lo hi (VNumber n)) = VNumber n.
Proof.
  intros Hn. unfold range_value, input_string.
  change (to_string (VNumber n)) with (NilEmpty.string_of_int (Z.to_int n)).
  rewrite is_decimal_string_of_int.
  change (NilEmpty.string_of_int (Z.to_int n)) with (to_string (VNumber n)).
  rewrite to_number_to_string.
  replace (Z.max lo (Z.min hi n)) with n by lia.
  unfold Number. f_equal. apply to_number_to_string.
Qed.

(** A select element keeps the values of its options. *)
Lemma select_keeps_its_options options s :
  s ∈ options → select_value options (VString s) = VString s.
Proof.
  intros Hs. unfold select_value, to_string. by rewrite bool_decide_eq_true_2.
Qed.

(** A text input keeps the strings without line breaks. *)
Lemma text_input_keeps_lines s :
  strip_newlines s = s → text_value (VString s) = VString s.
Proof.
  intros Hs. unfold text_value, input_string, to_string. by rewrite Hs.
Qed.

(** *** The theorems on the page *)

Lemma group_extraction_aggregate_witness :
  document page_remembering !! 4 = Some size_input
  ∧ getAttribute "data-optiongroup" size_input = Some "qrCodeSize"
  ∧ ∃ l st' pairs,
      getIdAndOptionsFromElement 4 true page_remembering
      = Normal (Some "qrCodeSize", VObject l) st'
      ∧ Forall2 (λ m p, getIdAndOptionFromElement
                          (document page_remembering) m = Ok p)
                (querySelectorAll_optiongroup (document page_remembering)
                                              "qrCodeSize")
                pairs
      ∧ heap st' !! l
        = Some (collect (remembered_group page_remembering "qrCodeSize")
                        pairs).
Proof.
  split; [reflexivity|]. split; [reflexivity|].
  destruct (group_extraction_aggregate 4 size_input "qrCodeSize"
              page_remembering eq_refl eq_refl)
    as (_ & _ & Hreturned & Hreturns).
  destruct (Hreturns {[ "qrCodeSize" := VObject 1%positive ]} size_pairs)
    as (res & st' & Hcall).
  - reflexivity.
  - intros v Hv. exists 1%positive.
    vm_compute in Hv. injection Hv as <-. split; [reflexivity|].
    vm_compute. eexists. reflexivity.
  - change (querySelectorAll_optiongroup (document page_remembering)
                                         "qrCodeSize") with [4; 5].
    repeat constructor.
  - destruct (Hreturned res st' Hcall) as (l & pairs & -> & Hpairs & Hl & _).
    exists l, st', pairs. repeat split; assumption.
Defined.

Lemma group_extraction_updates_remembered_witness :
  document page_remembering !! 4 = Some size_input
  ∧ getAttribute "data-optiongroup" size_input = Some "qrCodeSize"
  ∧ rememberedOptions page_remembering = Some stored_size_group
  ∧ stored_size_group !! "qrCodeSize" = Some (VObject 1%positive)
  ∧ ∃ st',
      getIdAndOptionsFromElement 4 true page_remembering
      = Normal (Some "qrCodeSize", VObject 1%positive) st'
      ∧ rememberedOptions st' = Some stored_size_group
      ∧ ∃ pairs, remembered_group st' "qrCodeSize"
                 = collect (remembered_group page_remembering "qrCodeSize")
                           pairs.
Proof.
  split; [reflexivity|]. split; [reflexivity|]. split; [reflexivity|].
  split; [reflexivity|].
  destruct (group_extraction_updates_remembered 4 size_input "qrCodeSize"
              stored_size_group (VObject 1%positive) page_remembering
              eq_refl eq_refl eq_refl ltac:(vm_compute; reflexivity))
    as (Hreturned & Hreturns).
  destruct (Hreturns 1%positive
              {[ "size" := VNumber 100%Z; "sizeType" := VString "auto";
                 "unit" := VString "px" ]} size_pairs)
    as (res & st' & Hcall).
  - reflexivity.
  - reflexivity.
  - change (querySelectorAll_optiongroup (document page_remembering)
                                         "qrCodeSize") with [4; 5].
    repeat constructor.
  - destruct (Hreturned res st' Hcall)
      as (l & o & pairs & Hv & Ho & _ & -> & Hr & _ & Hgroup & _).
    injection Hv as <-.
    exists st'. split; [exact Hcall|]. split; [exact Hr|].
    exists pairs. rewrite Hgroup. f_equal.
    vm_compute in Ho. injection Ho as <-. vm_compute. reflexivity.
Defined.

Lemma apply_option_present_group_missing_throws_witness :
  hasOwnProperty stored_size "size" = true
  ∧ hasOwnProperty stored_size "qrCodeSize" = false
  ∧ applyOptionToElement "size" (Some "qrCodeSize") 4
      (Some stored_size) page
    = Throw TypeError page.
Proof.
  split; [reflexivity|]. split; [reflexivity|].
  apply apply_option_present_group_missing_throws; reflexivity.
Defined.

Lemma checkbox_tristate_witness :
  type_of icon_checkbox = Some "checkbox"
  ∧ stored_icon !! "popupIconColored" = Some VNull
  ∧ ∃ st',
      applyOptionToElement "popupIconColored" None 0
        (Some stored_icon) page = Normal tt st'
      ∧ (indeterminate <$> document st' !! 0) = Some true
      ∧ getIdAndOptionFromElement (document st') 0
        = Ok (Some "popupIconColored", VNull).
Proof.
  split; [reflexivity|]. split; [reflexivity|].
  destruct (checkbox_tristate "popupIconColored"
              stored_icon VNull 0 icon_checkbox page
              eq_refl eq_refl ltac:(vm_compute; reflexivity))
    as (Happly & _ & Hextract).
  eexists. split; [exact Happly|]. split; [reflexivity|exact Hextract].
Defined.

Lemma apply_uses_default_witness :
  hasOwnProperty nothing_stored "qrQuality" = false
  ∧ hasOwnProperty nothing_stored (group_key None) = false
  ∧ provided_default (heap page) defaults "qrQuality" None
    = Ok (VString "H")
  ∧ round_trips (document page) quality_group (VString "H")
  ∧ (∃ doc' optionId',
       applyOptionToElement "qrQuality" None 1 (Some nothing_stored) page
       = Normal tt (set_document doc' page)
       ∧ getIdAndOptionFromElement doc' 1 = Ok (optionId', VString "H"))
  ∧ provided_default (heap page) defaults "size" (Some "qrCodeSize")
    = Ok (VNumber 150%Z)
  ∧ round_trips (document page) size_input (VNumber 150%Z)
  ∧ ∃ doc' optionId',
      applyOptionToElement "size" (Some "qrCodeSize") 4
                           (Some nothing_stored) page
      = Normal tt (set_document doc' page)
      ∧ (value <$> doc' !! 4) = Some (VString "150")
      ∧ getIdAndOptionFromElement doc' 4 = Ok (optionId', VNumber 150%Z).
Proof.
  assert (round_trips (document page) quality_group (VString "H")) as Hfit.
  { unfold round_trips.
    rewrite decide_False by discriminate.
    rewrite decide_True by reflexivity.
    split; [reflexivity|].
    exists 3, quality_H. repeat split. }
  assert (round_trips (document page) size_input (VNumber 150%Z)) as Hsize.
  { unfold round_trips.
    rewrite !decide_False by discriminate.
    rewrite decide_True by (left; reflexivity).
    vm_compute. reflexivity. }
  split; [reflexivity|]. split; [reflexivity|]. split; [reflexivity|].
  split; [exact Hfit|]. split; [|split; [reflexivity|split; [exact Hsize|]]].
  - destruct (apply_uses_default "qrQuality" None
                nothing_stored defaults (VString "H") 1 quality_group page
                ltac:(vm_compute; reflexivity)
                ltac:(vm_compute; reflexivity) eq_refl
                ltac:(vm_compute; reflexivity))
      as (doc' & Happly & _ & _ & Hvalue); [discriminate|reflexivity|].
    destruct (Hvalue Hfit) as (optionId' & Hextract & _).
    exists doc', optionId'. split; [exact Happly|exact Hextract].
  - destruct (apply_uses_default "size" (Some "qrCodeSize")
                nothing_stored defaults (VNumber 150%Z) 4 size_input page
                ltac:(vm_compute; reflexivity)
                ltac:(vm_compute; reflexivity) eq_refl
                ltac:(vm_compute; reflexivity))
      as (doc' & Happly & _ & _ & Hvalue); [discriminate|reflexivity|].
    destruct (Hvalue Hsize) as (optionId' & Hextract & _).
    exists doc', optionId'. split; [exact Happly|]. split; [|exact Hextract].
    assert (match
              applyOptionToElement "size" (Some "qrCodeSize") 4
                                   (Some nothing_stored) page
            with
            | Normal _ st' =>
                (value <$> document st' !! 4) = Some (VString "150")
            | Throw _ _ => False
            end) as Hread by (vm_compute; reflexivity).
    rewrite Happly in Hread. exact Hread.
Defined.

Lemma radiogroup_extraction_witness :
  type_of quality_group = Some "radiogroup"
  ∧ Forall (λ k, is_checked_radio options_page k = false)
           (getElementsByTagName options_page quality_group "input")
  ∧ getIdAndOptionFromElement options_page 1
    = Raise (Error nothing_selected).
Proof.
  assert (Forall (λ k, is_checked_radio options_page k = false)
            (getElementsByTagName options_page quality_group "input"))
    as Hnone.
  { change (getElementsByTagName options_page _ "input") with [2; 3].
    repeat constructor. }
  split; [reflexivity|]. split; [exact Hnone|].
  destruct (radiogroup_extraction options_page 1 quality_group
              eq_refl eq_refl) as [Hthrows _].
  apply Hthrows; [reflexivity | exact Hnone].
Defined.

Lemma apply_then_extract_round_trip_witness :
  stored_quality "H" !! "qrQuality" = Some (VString "H")
  ∧ round_trips (document page) quality_group (VString "H")
  ∧ (∃ st' optionId',
       applyOptionToElement "qrQuality" None 1
         (Some (stored_quality "H")) page = Normal tt st'
       ∧ getIdAndOptionsFromElement 1 false st'
         = Normal (optionId', VString "H") st')
  ∧ stored_size !! "size" = Some (VNumber 200%Z)
  ∧ round_trips (document page) size_input (VNumber 200%Z)
  ∧ ∃ st' optionId',
      applyOptionToElement "size" None 4 (Some stored_size) page
      = Normal tt st'
      ∧ getIdAndOptionsFromElement 4 false st'
        = Normal (optionId', VNumber 200%Z) st'.
Proof.
  assert (round_trips (document page) quality_group (VString "H")) as Hfit.
  { unfold round_trips.
    rewrite decide_False by discriminate.
    rewrite decide_True by reflexivity.
    split; [reflexivity|].
    exists 3, quality_H. repeat split. }
  assert (round_trips (document page) size_input (VNumber 200%Z)) as Hsize.
  { unfold round_trips.
    rewrite !decide_False by discriminate.
    rewrite decide_True by (left; reflexivity).
    vm_compute. reflexivity. }
  split; [reflexivity|]. split; [exact Hfit|].
  split; [|split; [reflexivity|split; [exact Hsize|]]].
  - destruct (apply_then_extract_round_trip "qrQuality"
                (stored_quality "H") (VString "H") 1 quality_group
                page
                eq_refl ltac:(vm_compute; reflexivity) Hfit)
      as (st' & optionId' & Happly & _ & Hextract).
    exists st', optionId'. split; assumption.
  - destruct (apply_then_extract_round_trip "size" stored_size
                (VNumber 200%Z) 4 size_input page
                eq_refl ltac:(vm_compute; reflexivity) Hsize)
      as (st' & optionId' & Happly & _ & Hextract).
    exists st', optionId'. split; assumption.
Defined.

Lemma remembered_options_life_cycle_witness :
  Forall2 (λ m p, getIdAndOptionFromElement
                    (document page_remembering) m = Ok p)
          (querySelectorAll_optiongroup (document page_remembering)
                                        "qrCodeSize")
          size_pairs
  ∧ ∃ l st',
      bind resetRememberedOptions
           (λ _, getIdAndOptionsFromElement 4 true) page_remembering
      = Normal (Some "qrCodeSize", VObject l) st'
      ∧ heap st' !! l = Some (collect ∅ size_pairs)
      ∧ is_remembered st' "qrCodeSize" = false.
Proof.
  assert (Forall2 (λ m p, getIdAndOptionFromElement
                            (document page_remembering) m = Ok p)
            (querySelectorAll_optiongroup (document page_remembering)
                                          "qrCodeSize")
            size_pairs) as Hpairs.
  { change (querySelectorAll_optiongroup (document page_remembering)
                                         "qrCodeSize") with [4; 5].
    repeat constructor. }
  split; [exact Hpairs|].
  destruct (remembered_options_life_cycle 4 size_input
              "qrCodeSize" size_pairs page_remembering eq_refl eq_refl Hpairs)
    as (_ & _ & _ & _ & _ & l & st' & Hcall & Hl & _ & Hnot).
  exists l, st'. repeat split; assumption.
Defined.

(** *** Where the behaviour differs *)

(** C2, counterexample: the radio group [qrQuality] has a selected child
    that declares no id; extraction returns the value of the child under
    the id of the group element. *)
Lemma radiogroup_unnamed_child_counterexample :
  unnamed_page !! 1 = Some quality_group
  ∧ selectedElement quality_group = None
  ∧ List.find (is_checked_radio unnamed_page)
              (getElementsByTagName unnamed_page quality_group "input")
    = Some 3
  ∧ unnamed_page !! 3 = Some quality_H_unnamed
  ∧ getOptionIdFromElement quality_H_unnamed = None
  ∧ getOptionIdFromElement quality_group = Some "qrQuality"
  ∧ getIdAndOptionFromElement unnamed_page 1
    = Ok (Some "qrQuality", VString "H").
Proof.
  split; [reflexivity|]. split; [reflexivity|].
  split; [vm_compute; reflexivity|]. split; [reflexivity|].
  split; [vm_compute; reflexivity|]. split; [vm_compute; reflexivity|].
  vm_compute. reflexivity.
Qed.

(** C3, counterexamples.  The stored quality [Q] is the value of no radio
    child, so applying it selects nothing and the extraction that follows
    throws instead of returning [Q].  The stored value [true], applied to a
    checkbox that is indeterminate, comes back as [null].  The stored zoom
    [200] is outside the range of the control and comes back as [100].
    The stored size type [huge] is none of the options of the select
    element and comes back as the empty string.  And the number [5],
    stored for a text input, comes back as the string [5]. *)
Lemma apply_then_extract_counterexample :
  stored_quality "Q" !! "qrQuality" = Some (VString "Q")
  ∧ match
      bind (applyOptionToElement "qrQuality" None 1
              (Some (stored_quality "Q")))
           (λ _, getIdAndOptionsFromElement 1 false) page
    with
    | Throw e _ => e = Error nothing_selected
    | Normal _ _ => False
    end
  ∧ match
      bind (applyOptionToElement "popupIconColored" None 0
              (Some stored_icon))
           (λ _, bind (applyOptionToElement "popupIconColored"
                         None 0 (Some stored_icon_checked))
                      (λ _, getIdAndOptionsFromElement 0 false))
           page
    with
    | Normal p _ => p = (Some "popupIconColored", VNull)
    | Throw _ _ => False
    end
  ∧ type_of zoom_range = Some "range"
  ∧ stored_zoom !! "zoom" = Some (VNumber 200%Z)
  ∧ match
      bind (applyOptionToElement "zoom" None 1 (Some stored_zoom))
           (λ _, getIdAndOptionsFromElement 1 false) appearance
    with
    | Normal p _ => p = (Some "zoom", VNumber 100%Z)
    | Throw _ _ => False
    end
  ∧ match
      bind (applyOptionToElement "sizeType" None 2
              (Some (stored_size_type "huge")))
           (λ _, getIdAndOptionsFromElement 2 false) appearance
    with
    | Normal p _ => p = (Some "sizeType", VString "")
    | Throw _ _ => False
    end
  ∧ match
      bind (applyOptionToElement "qrColor" None 0 (Some stored_color_number))
           (λ _, getIdAndOptionsFromElement 0 false) appearance
    with
    | Normal p _ => p = (Some "qrColor", VString "5")
    | Throw _ _ => False
    end.
Proof. repeat split; vm_compute; reflexivity. Qed.

(** C6, counterexample: after a reset, the extraction of the group
    [qrCodeSize] returns the aggregate and leaves the group not
    remembered; so does an apply that takes the value of an option of the
    group from the default provider. *)
Lemma extraction_does_not_remember_counterexample :
  match
    bind resetRememberedOptions
         (λ _, getIdAndOptionsFromElement 4 true) page_remembering
  with
  | Normal (optionId, _) st' =>
      optionId = Some "qrCodeSize" ∧ is_remembered st' "qrCodeSize" = false
  | Throw _ _ => False
  end
  ∧ match
      applyOptionToElement "size" (Some "qrCodeSize") 4
                           (Some nothing_stored) page
    with
    | Normal _ st' =>
        (value <$> document st' !! 4) = Some (VString "150")
        ∧ is_remembered st' "qrCodeSize" = false
    | Throw _ _ => False
    end.
Proof. vm_compute. repeat split. Qed.

(** C8, counterexamples.  An option without a group is looked up under
    the key [null] as its group: with such a key in the loaded values, the
    colour, which is not stored and has a default, is not asked from the
    provider; the control is assigned [undefined].  The default [Q] of the
    quality is the value of no radio child: the apply returns, nothing is
    selected, and the extraction that follows throws.  And the default
    [true] of a checkbox that is indeterminate leaves it indeterminate: the
    extraction that follows returns [null]. *)
Lemma apply_default_counterexample :
  hasOwnProperty stored_under_null "qrColor" = false
  ∧ defaults "qrColor" = VString "#0c0c0d"
  ∧ match
      bind (applyOptionToElement "qrColor" None 0 (Some stored_under_null))
           (λ _, getIdAndOptionsFromElement 0 false) appearance
    with
    | Normal p _ => p = (Some "qrColor", VString "undefined")
    | Throw _ _ => False
    end
  ∧ hasOwnProperty nothing_stored "qrQuality" = false
  ∧ hasOwnProperty nothing_stored (group_key None) = false
  ∧ odd_defaults "qrQuality" = VString "Q"
  ∧ match
      applyOptionToElement "qrQuality" None 1 (Some nothing_stored)
                           page_with_odd_defaults
    with
    | Normal _ st' =>
        getIdAndOptionFromElement (document st') 1
        = Raise (Error nothing_selected)
    | Throw _ _ => False
    end
  ∧ odd_defaults "popupIconColored" = VBool true
  ∧ match
      bind (applyOptionToElement "popupIconColored" None 0
              (Some stored_icon))
           (λ _, bind (applyOptionToElement "popupIconColored" None 0
                         (Some nothing_stored))
                      (λ _, getIdAndOptionsFromElement 0 false))
           page_with_odd_defaults
    with
    | Normal p st' =>
        p = (Some "popupIconColored", VNull)
        ∧ (checked <$> document st' !! 0) = Some true
    | Throw _ _ => False
    end.
Proof. repeat split; vm_compute; reflexivity. Qed.

(** C4, at the failing input: nothing is stored for the option [size] or
    its group [qrCodeSize] and the provider has no default for the group.
    The call throws a [TypeError], where the same provider asked for an
    option without a group makes the call return with the page as it
    was. *)
Theorem apply_without_group_default_throws :
  hasOwnProperty nothing_stored "size" = false
  ∧ hasOwnProperty nothing_stored "qrCodeSize" = false
  ∧ no_defaults "qrCodeSize" = VUndefined
  ∧ applyOptionToElement "size" (Some "qrCodeSize") 4
      (Some nothing_stored) page_without_defaults
    = Throw TypeError page_without_defaults
  ∧ applyOptionToElement "qrColor" None 0
      (Some nothing_stored) page_without_defaults
    = Normal tt page_without_defaults.
Proof.
  split; [reflexivity|]. split; [reflexivity|]. split; [reflexivity|]. split.
  - apply (apply_without_group_default "size" "qrCodeSize"
             nothing_stored no_defaults); try reflexivity. by left.
  - apply apply_without_default; try reflexivity.
    right. exists no_defaults. split; reflexivity.
Qed.

(** *** More of the module on the page *)


Lemma apply_twice_witness :
  ∃ st1,
    applyOptionToElement "qrQuality" None 1 (Some (stored_quality "H")) page
    = Normal tt st1
    ∧ is_checked_radio (document st1) 3 = true
    ∧ (checked <$> document st1 !! 3) = Some true
    ∧ applyOptionToElement "qrQuality" None 1 (Some (stored_quality "H")) st1
      = Normal tt st1.
Proof.
  assert (match
            applyOptionToElement "qrQuality" None 1
              (Some (stored_quality "H")) page
          with
          | Normal _ st' =>
              is_checked_radio (document st') 3 = true
              ∧ (checked <$> document st' !! 3) = Some true
          | Throw _ _ => False
          end) as Hread by (vm_compute; split; reflexivity).
  destruct (applyOptionToElement "qrQuality" None 1
              (Some (stored_quality "H")) page)
    as [[] st1|e st1] eqn:Hfirst; [|destruct Hread].
  destruct Hread as [Hattribute Hchecked].
  exists st1. split; [reflexivity|]. split; [exact Hattribute|].
  split; [exact Hchecked|]. exact (apply_twice _ _ _ _ _ _ Hfirst).
Defined.

Lemma radiogroup_apply_without_match_witness :
  document page !! 1 = Some quality_group
  ∧ type_of quality_group = Some "radiogroup"
  ∧ stored_quality "Q" !! "qrQuality" = Some (VString "Q")
  ∧ applyOptionToElement "qrQuality" None 1 (Some (stored_quality "Q")) page
    = Normal tt page.
Proof.
  split; [reflexivity|]. split; [reflexivity|]. split; [reflexivity|].
  destruct (radiogroup_apply_without_match "qrQuality" (stored_quality "Q")
              (VString "Q") 1 quality_group page eq_refl eq_refl
              ltac:(vm_compute; reflexivity)) as [Hsilent _].
  apply Hsilent. intros k child Hk Hchild.
  change (getElementsByTagName (document page) quality_group "input")
    with [2; 3] in Hk.
  apply elem_of_cons in Hk as [->|Hk].
  - injection Hchild as <-. reflexivity.
  - apply list_elem_of_singleton in Hk as ->.
    injection Hchild as <-. reflexivity.
Defined.

Lemma radiogroup_first_checked_child_wins_witness :
  document page_with_L !! 1 = Some quality_group
  ∧ stored_quality "H" !! "qrQuality" = Some (VString "H")
  ∧ is_checked_radio (document page_with_L) 2 = true
  ∧ ∃ st',
      applyOptionToElement "qrQuality" None 1 (Some (stored_quality "H"))
                           page_with_L
      = Normal tt st'
      ∧ is_checked_radio (document st') 3 = true
      ∧ getIdAndOptionFromElement (document st') 1
        = Ok (Some "qrQuality", VString "L").
Proof.
  split; [reflexivity|]. split; [reflexivity|]. split; [reflexivity|].
  destruct (radiogroup_first_checked_child_wins "qrQuality"
              (stored_quality "H") (VString "H") 1 quality_group 2
              page_with_L eq_refl eq_refl eq_refl
              ltac:(vm_compute; reflexivity) ltac:(vm_compute; reflexivity)
              eq_refl)
    as (st' & child & Happly & _ & Hbefore & Hafter).
  exists st'. split; [exact Happly|]. split.
  - assert (match
              applyOptionToElement "qrQuality" None 1
                (Some (stored_quality "H")) page_with_L
            with
            | Normal _ st' => is_checked_radio (document st') 3 = true
            | Throw _ _ => False
            end) as Hread by (vm_compute; reflexivity).
    rewrite Happly in Hread. exact Hread.
  - rewrite Hafter. vm_compute. reflexivity.
Defined.

Lemma radiogroup_marker_survives_apply_witness :
  document page_with_marker !! 1 = Some quality_group_marked
  ∧ type_of quality_group_marked = Some "radiogroup"
  ∧ selectedElement quality_group_marked = Some 2
  ∧ getIdAndOptionFromElement
      (document
         (final_state
            (applyOptionToElement "qrQuality" None 1
               (Some (stored_quality "H")) page_with_marker)))
      1
    = Ok (Some "qrQuality", VString "L").
Proof.
  split; [reflexivity|]. split; [reflexivity|]. split; [reflexivity|].
  rewrite (radiogroup_marker_survives_apply "qrQuality" None
             (Some (stored_quality "H")) 1 quality_group_marked 2
             page_with_marker eq_refl eq_refl eq_refl).
  vm_compute. reflexivity.
Defined.

Lemma group_extraction_failure_keeps_writes_witness :
  document page_with_units !! 0 = Some size_input
  ∧ querySelectorAll_optiongroup (document page_with_units) "qrCodeSize"
    = [0] ++ 1 :: []
  ∧ getIdAndOptionFromElement (document page_with_units) 1
    = Raise (Error nothing_selected)
  ∧ ∃ st',
      getIdAndOptionsFromElement 0 true page_with_units
      = Throw (Error nothing_selected) st'
      ∧ remembered_group st' "qrCodeSize" !! "size" = Some (VNumber 200%Z).
Proof.
  split; [reflexivity|]. split; [vm_compute; reflexivity|].
  split; [vm_compute; reflexivity|].
  destruct (group_extraction_failure_keeps_writes 0 size_input "qrCodeSize"
              stored_size_group 1%positive size_object [0] 1 []
              [(Some "size", VNumber 200%Z)] (Error nothing_selected)
              page_with_units eq_refl eq_refl eq_refl
              ltac:(vm_compute; reflexivity) ltac:(vm_compute; reflexivity)
              ltac:(vm_compute; reflexivity))
    as (st' & Hcall & _ & Hgroup).
  - repeat constructor.
  - vm_compute. reflexivity.
  - exists st'. split; [exact Hcall|]. rewrite Hgroup.
    vm_compute. reflexivity.
Defined.

Lemma grouped_calls_need_reset_witness :
  rememberedOptions page_not_set_up = None
  ∧ document page_not_set_up !! 4 = Some size_input
  ∧ stored_size_group !! "qrCodeSize" = Some (VObject 1%positive)
  ∧ getIdAndOptionsFromElement 4 true page_not_set_up
    = Throw TypeError page_not_set_up
  ∧ applyOptionToElement "size" (Some "qrCodeSize") 4
      (Some stored_size_group) page_not_set_up
    = Throw TypeError page_not_set_up.
Proof.
  split; [reflexivity|]. split; [reflexivity|]. split; [reflexivity|].
  exact (grouped_calls_need_reset 4 size_input "qrCodeSize" "size"
           stored_size_group 1%positive size_object 4 page_not_set_up
           eq_refl eq_refl eq_refl ltac:(vm_compute; reflexivity)
           ltac:(vm_compute; reflexivity)).
Defined.

Lemma apply_without_provider_witness :
  hasOwnProperty nothing_stored "qrColor" = false
  ∧ hasOwnProperty nothing_stored (group_key None) = false
  ∧ defaultOptionGetter page_not_set_up = GetterUndefined
  ∧ applyOptionToElement "qrColor" None 0 (Some nothing_stored)
      page_not_set_up
    = Throw TypeError page_not_set_up.
Proof.
  split; [reflexivity|]. split; [reflexivity|]. split; [reflexivity|].
  exact (proj1 (apply_without_provider "qrColor" None 0 nothing_stored
                  page_not_set_up ltac:(vm_compute; reflexivity)
                  ltac:(vm_compute; reflexivity) eq_refl)).
Defined.

Lemma group_round_trip_through_loaded_object_witness :
  rememberedOptions page = Some ∅
  ∧ stored_size_group !! "qrCodeSize" = Some (VObject 1%positive)
  ∧ heap page !! 1%positive = Some size_object
  ∧ ∃ st1 st2,
      applyOptionToElement "size" (Some "qrCodeSize") 4
        (Some stored_size_group) page
      = Normal tt st1
      ∧ (value <$> document st1 !! 4) = Some (VString "100")
      ∧ getIdAndOptionsFromElement 5 true st1
        = Normal (Some "qrCodeSize", VObject 1%positive) st2
      ∧ heap st2 !! 1%positive
        = Some {[ "size" := VNumber 100%Z; "sizeType" := VString "fixed";
                  "unit" := VString "px" ]}.
Proof.
  split; [reflexivity|]. split; [reflexivity|]. split; [reflexivity|].
  assert (match
            applyOptionToElement "size" (Some "qrCodeSize") 4
              (Some stored_size_group) page
          with
          | Normal _ st' =>
              (value <$> document st' !! 4) = Some (VString "100")
              ∧ (getAttribute "data-optiongroup" <$> document st' !! 5)
                = Some (Some "qrCodeSize")
              ∧ querySelectorAll_optiongroup (document st') "qrCodeSize"
                = [4; 5]
              ∧ getIdAndOptionFromElement (document st') 4
                = Ok (Some "size", VNumber 100%Z)
              ∧ getIdAndOptionFromElement (document st') 5
                = Ok (Some "sizeType", VString "fixed")
          | Throw _ _ => False
          end) as Hread by (vm_compute; repeat split).
  destruct (applyOptionToElement "size" (Some "qrCodeSize") 4
              (Some stored_size_group) page)
    as [[] st1|e st1] eqn:Happly; [|destruct Hread].
  destruct Hread as (Hvalue & Hgroup & Hmembers & Hsize & Htype).
  destruct (document st1 !! 5) as [el|] eqn:Hel; [|discriminate].
  injection Hgroup as Hgroup.
  destruct (group_round_trip_through_loaded_object "size" "qrCodeSize" 4 5
              el stored_size_group ∅ 1%positive size_object
              applied_size_pairs page st1 eq_refl
              ltac:(vm_compute; reflexivity) ltac:(vm_compute; reflexivity)
              ltac:(vm_compute; reflexivity) Happly Hel Hgroup)
    as (st2 & Hcall & _ & Hl & _).
  - rewrite Hmembers. repeat constructor; assumption.
  - exists st1, st2. split; [reflexivity|]. split; [exact Hvalue|].
    split; [exact Hcall|]. etrans; [exact Hl|].
    vm_compute. reflexivity.
Defined.

Lemma stored_group_without_option_writes_undefined_witness :
  stored_size_group !! "qrCodeSize" = Some (VObject 1%positive)
  ∧ heap appearance !! 1%positive = Some size_object
  ∧ size_object !! "margin" = None
  ∧ ∃ st',
      applyOptionToElement "margin" (Some "qrCodeSize") 0
        (Some stored_size_group) appearance = Normal tt st'
      ∧ (value <$> document st' !! 0) = Some (VString "undefined").
Proof.
  split; [reflexivity|]. split; [reflexivity|]. split; [reflexivity|].
  destruct (stored_group_without_option_writes_undefined "margin"
              "qrCodeSize" 0 color_input stored_size_group ∅
              1%positive size_object appearance
              ltac:(vm_compute; reflexivity) ltac:(vm_compute; reflexivity)
              ltac:(vm_compute; reflexivity) eq_refl eq_refl)
    as (st' & Happly & _ & Hdoc).
  exists st'. split; [exact Happly|]. rewrite Hdoc. reflexivity.
Defined.

Lemma extraction_fails_only_for_radiogroups_witness :
  options_page !! 0 = Some icon_checkbox
  ∧ type_of icon_checkbox ≠ Some "radiogroup"
  ∧ getIdAndOptionFromElement options_page 0
    = Ok (Some "popupIconColored", VBool false).
Proof.
  assert (type_of icon_checkbox ≠ Some "radiogroup") as Hkind
    by discriminate.
  split; [reflexivity|]. split; [exact Hkind|].
  destruct (extraction_fails_only_for_radiogroups options_page 0
              icon_checkbox eq_refl Hkind) as (v & Hextract & Hv).
  rewrite Hextract. vm_compute in Hv. rewrite Hv. reflexivity.
Defined.

Lemma group_without_radiogroups_extracts_witness :
  document page_remembering !! 4 = Some size_input
  ∧ rememberedOptions page_remembering = Some stored_size_group
  ∧ ∃ l st' aggregate,
      getIdAndOptionsFromElement 4 true page_remembering
      = Normal (Some "qrCodeSize", VObject l) st'
      ∧ heap st' !! l = Some aggregate
      ∧ is_Some (aggregate !! "sizeType").
Proof.
  split; [reflexivity|]. split; [reflexivity|].
  destruct (group_without_radiogroups_extracts 4 size_input "qrCodeSize"
              stored_size_group page_remembering eq_refl eq_refl eq_refl)
    as (l & st' & aggregate & Hcall & Hl & Hkeys).
  - intros v Hv. exists 1%positive.
    vm_compute in Hv. injection Hv as <-. split; [reflexivity|].
    vm_compute. eexists. reflexivity.
  - intros m e Hm Hg.
    assert (m ∈ querySelectorAll_optiongroup (document page_remembering)
                                             "qrCodeSize") as Hin
      by (apply elem_of_querySelectorAll_optiongroup; eauto).
    change (querySelectorAll_optiongroup (document page_remembering)
                                         "qrCodeSize") with [4; 5] in Hin.
    apply elem_of_cons in Hin as [->|Hin].
    + injection Hm as <-. discriminate.
    + apply list_elem_of_singleton in Hin as ->.
      injection Hm as <-. discriminate.
  - exists l, st', aggregate. split; [exact Hcall|]. split; [exact Hl|].
    exact (Hkeys 5 size_type_select eq_refl eq_refl).
Defined.

Lemma apply_stored_option_always_returns_witness :
  stored_icon !! "popupIconColored" = Some VNull
  ∧ document page_not_set_up !! 0 = Some icon_checkbox
  ∧ ∃ st',
      applyOptionToElement "popupIconColored" None 0 (Some stored_icon)
                           page_not_set_up
      = Normal tt st'
      ∧ rememberedOptions st' = None.
Proof.
  split; [reflexivity|]. split; [reflexivity|].
  destruct (apply_stored_option_always_returns "popupIconColored"
              stored_icon VNull 0 icon_checkbox page_not_set_up
              ltac:(vm_compute; reflexivity) eq_refl)
    as (st' & Happly & _ & Hr & _).
  exists st'. split; [exact Happly|]. rewrite Hr. reflexivity.
Defined.

Lemma extract_apply_extract_witness :
  document page !! 4 = Some size_input
  ∧ type_of size_input ≠ Some "radiogroup"
  ∧ stored_size !! "size" = Some (VNumber 200%Z)
  ∧ keeps_own_value size_input
  ∧ getIdAndOptionFromElement (document page) 4
    = Ok (Some "size", VNumber 200%Z)
  ∧ ∃ st',
      applyOptionToElement "size" None 4 (Some stored_size) page
      = Normal tt st'
      ∧ getIdAndOptionFromElement (document st') 4
        = Ok (Some "size", VNumber 200%Z).
Proof.
  assert (type_of size_input ≠ Some "radiogroup") as Hkind by discriminate.
  assert (keeps_own_value size_input) as Hkeeps.
  { unfold keeps_own_value.
    rewrite decide_False by discriminate.
    rewrite decide_True by (left; reflexivity).
    vm_compute. reflexivity. }
  assert (getIdAndOptionFromElement (document page) 4
          = Ok (Some "size", VNumber 200%Z)) as Hfirst
    by (vm_compute; reflexivity).
  split; [reflexivity|]. split; [exact Hkind|]. split; [reflexivity|].
  split; [exact Hkeeps|]. split; [exact Hfirst|].
  destruct (extract_apply_extract "size" stored_size 4 size_input page
              eq_refl Hkind) as (optionId' & v & Hextract & Hload).
  rewrite Hfirst in Hextract. injection Hextract as <- <-.
  destruct Hload as (st' & v' & Happly & Hagain & Hsame);
    [vm_compute; reflexivity|].
  exists st'. split; [exact Happly|]. by rewrite <- (Hsame Hkeeps).
Defined.
